(** * Go-Back-N sender ([GO-BACK2025/client.py]): model and properties

    The sender object [GBNClient] is embedded as a record; each method is a
    function on that record.  The socket, the [threading.Timer] objects and
    the positions of the main thread and of the listener thread are explicit
    parts of the state, so that the interleavings of the three threads
    (producer, acknowledgment listener, timer) are the runs of a labelled
    transition function.

    What a thread does while it holds [self.lock] is one transition: the
    three critical sections ([send_packets], [handle_ack],
    [handle_timeout]) exclude one another.  What is read without the lock
    is a transition of its own: the test of the outer loop of
    [send_packets], the test of the loop of [receive_acks], and the call of
    [handle_timeout] by a timer thread, which then waits for the lock.
    [stop] takes no lock; it is one transition of the main thread.  A
    [KeyboardInterrupt] is raised in the main thread only; it may cut the
    critical section of [send_packets] short at any statement, since the
    [except Exception] clause of [send_packet] does not catch it.

    Integers are Python integers ([Z]); datagrams are [list byte]; the two
    dictionaries are finite maps; [random.random()] and the configured loss
    rate are rationals (every finite float is one, and the comparison of two
    floats is the comparison of their values).  Calls to [self.log] and
    [print] only write text and are left out, and so are the server address
    and the length of the timer interval, which no transition depends on: a
    timer that is armed may expire at any moment. *)

From Stdlib Require Import ZArith QArith Strings.Byte String List Lia.
From Stdlib Require Import DecimalString.
From stdpp Require Import base option list gmap.
Close Scope Q_scope.
Open Scope Z_scope.

(** ** Packet codec *)

Module Codec.

(** The byte whose value is [z mod 256]. *)
Definition byte_of_Z (z : Z) : byte :=
  match Byte.of_N (Z.to_N (z mod 256)) with
  | Some b => b
  | None => x00
  end.

Definition Z_of_byte (b : byte) : Z := Z.of_N (Byte.to_N b).

(** [struct.pack('!I', n)]: four bytes, most significant first.  Python
    raises [struct.error] outside [0 .. 2^32-1]; callers test [packable]. *)
Definition packable (n : Z) : bool := (0 <=? n) && (n <? 2 ^ 32).

Definition struct_pack_I (n : Z) : list byte :=
  [byte_of_Z (Z.shiftr n 24); byte_of_Z (Z.shiftr n 16);
   byte_of_Z (Z.shiftr n 8); byte_of_Z n].

(** [struct.unpack('!I', data)[0]]; [None] stands for [struct.error], raised
    when [data] is not exactly four bytes long. *)
Definition struct_unpack_I (data : list byte) : option Z :=
  match data with
  | [b0; b1; b2; b3] =>
      Some (((Z_of_byte b0 * 256 + Z_of_byte b1) * 256 + Z_of_byte b2) * 256
            + Z_of_byte b3)
  | _ => None
  end.

(** [f"{n:03d}"] for [n >= 0]: decimal digits, zero-padded to width 3. *)
Definition format_03d (n : Z) : string :=
  let digits := NilZero.string_of_uint (N.to_uint (Z.to_N n)) in
  match String.length digits with
  | 1%nat => "00" ++ digits
  | 2%nat => "0" ++ digits
  | _ => digits
  end%string.

(** [payload = f"Messaggio {seq_num:03d}"], ASCII, so UTF-8 is one byte per
    character. *)
Definition payload (seq_num : Z) : list byte :=
  list_byte_of_string ("Messaggio " ++ format_03d seq_num).

(** [struct.pack('!I', seq_num) + payload.encode('utf-8')] *)
Definition make_packet (seq_num : Z) : list byte :=
  struct_pack_I seq_num ++ payload seq_num.

End Codec.
Import Codec.

(** ** The session state *)

Record Stats := mkStats {
  packets_sent : Z;
  packets_lost : Z;
  retransmissions : Z;
  acks_received : Z;
  timeouts : Z;
  total_packets : Z
}.

(** What [wait_for_completion] logs before [start] stops the client. *)
Inductive Report :=
| AllConfirmed
| Partially (confirmed total : Z).

(** Where the main thread is:
    - [InSendPackets]: at the test of the outer loop of [send_packets],
      which is read without the lock;
    - [AtLock]: that test has passed, [with self.lock] comes next;
    - [InWaitForCompletion]: at the test of the loop of
      [wait_for_completion], which is read without the lock;
    - [AfterWait]: that loop has been left, the [if] that reports comes
      next;
    - [Raised]: a [KeyboardInterrupt] is on its way out of [start], whose
      [finally] clause comes next;
    - [Caught]: the [finally] clause has called [stop]; the handler in
      [main], which calls [stop] again, comes next;
    - [Stopped]: [start] has been left, with what [wait_for_completion]
      reported if it returned. *)
Inductive Phase :=
| InSendPackets
| AtLock
| InWaitForCompletion
| AfterWait
| Raised
| Caught
| Stopped (report : option Report).

(** Where the listener thread is in [receive_acks]: at the test of its
    loop, inside the [try] (the test has passed; [recvfrom] comes next), or
    out of the loop. *)
Inductive ListenerAt :=
| AtWhile
| InTry
| Returned.

(** Attributes of [GBNClient] first, then the environment:
    - [sendto_calls]: the argument of every [socket.sendto] call, oldest
      first;
    - [armed]: [threading.Timer] objects started, neither cancelled nor
      expired; [Timer.cancel] takes a timer out of this list;
    - [expired]: timers whose interval has elapsed and whose thread has
      called [handle_timeout] but has not yet been given [self.lock];
      [Timer.cancel] no longer stops these;
    - [spawned]: number of [Timer] objects created so far (the identity of
      the next one);
    - [phase], [listener]: where the main thread and the listener thread
      are. *)
Record Session := mkSession {
  window_size : Z;
  packet_loss_rate : Q;
  base : Z;
  next_seq : Z;
  running : bool;
  timer_active : bool;
  timer_thread : option nat;
  stats : Stats;
  packet_data : gmap Z (list byte);
  sent_packets : gmap Z (list byte);
  sendto_calls : list (list byte);
  armed : list nat;
  expired : list nat;
  spawned : nat;
  phase : Phase;
  listener : ListenerAt
}.

Definition set_packet_loss_rate (v : Q) (s : Session) : Session :=
  mkSession (window_size s) v (base s) (next_seq s) (running s)
    (timer_active s) (timer_thread s) (stats s) (packet_data s)
    (sent_packets s) (sendto_calls s) (armed s) (expired s) (spawned s)
    (phase s) (listener s).

Definition set_base (v : Z) (s : Session) : Session :=
  mkSession (window_size s) (packet_loss_rate s) v (next_seq s) (running s)
    (timer_active s) (timer_thread s) (stats s) (packet_data s)
    (sent_packets s) (sendto_calls s) (armed s) (expired s) (spawned s)
    (phase s) (listener s).

Definition set_next_seq (v : Z) (s : Session) : Session :=
  mkSession (window_size s) (packet_loss_rate s) (base s) v (running s)
    (timer_active s) (timer_thread s) (stats s) (packet_data s)
    (sent_packets s) (sendto_calls s) (armed s) (expired s) (spawned s)
    (phase s) (listener s).

Definition set_running (v : bool) (s : Session) : Session :=
  mkSession (window_size s) (packet_loss_rate s) (base s) (next_seq s) v
    (timer_active s) (timer_thread s) (stats s) (packet_data s)
    (sent_packets s) (sendto_calls s) (armed s) (expired s) (spawned s)
    (phase s) (listener s).

Definition set_timer_active (v : bool) (s : Session) : Session :=
  mkSession (window_size s) (packet_loss_rate s) (base s) (next_seq s)
    (running s) v (timer_thread s) (stats s) (packet_data s)
    (sent_packets s) (sendto_calls s) (armed s) (expired s) (spawned s)
    (phase s) (listener s).

Definition set_timer_thread (v : option nat) (s : Session) : Session :=
  mkSession (window_size s) (packet_loss_rate s) (base s) (next_seq s)
    (running s) (timer_active s) v (stats s) (packet_data s)
    (sent_packets s) (sendto_calls s) (armed s) (expired s) (spawned s)
    (phase s) (listener s).

Definition set_stats (v : Stats) (s : Session) : Session :=
  mkSession (window_size s) (packet_loss_rate s) (base s) (next_seq s)
    (running s) (timer_active s) (timer_thread s) v (packet_data s)
    (sent_packets s) (sendto_calls s) (armed s) (expired s) (spawned s)
    (phase s) (listener s).

Definition set_packet_data (v : gmap Z (list byte)) (s : Session) : Session :=
  mkSession (window_size s) (packet_loss_rate s) (base s) (next_seq s)
    (running s) (timer_active s) (timer_thread s) (stats s) v
    (sent_packets s) (sendto_calls s) (armed s) (expired s) (spawned s)
    (phase s) (listener s).

Definition set_sent_packets (v : gmap Z (list byte)) (s : Session) : Session :=
  mkSession (window_size s) (packet_loss_rate s) (base s) (next_seq s)
    (running s) (timer_active s) (timer_thread s) (stats s) (packet_data s)
    v (sendto_calls s) (armed s) (expired s) (spawned s) (phase s)
    (listener s).

Definition set_sendto_calls (v : list (list byte)) (s : Session) : Session :=
  mkSession (window_size s) (packet_loss_rate s) (base s) (next_seq s)
    (running s) (timer_active s) (timer_thread s) (stats s) (packet_data s)
    (sent_packets s) v (armed s) (expired s) (spawned s) (phase s)
    (listener s).

Definition set_armed (v : list nat) (s : Session) : Session :=
  mkSession (window_size s) (packet_loss_rate s) (base s) (next_seq s)
    (running s) (timer_active s) (timer_thread s) (stats s) (packet_data s)
    (sent_packets s) (sendto_calls s) v (expired s) (spawned s) (phase s)
    (listener s).

Definition set_expired (v : list nat) (s : Session) : Session :=
  mkSession (window_size s) (packet_loss_rate s) (base s) (next_seq s)
    (running s) (timer_active s) (timer_thread s) (stats s) (packet_data s)
    (sent_packets s) (sendto_calls s) (armed s) v (spawned s) (phase s)
    (listener s).

Definition set_spawned (v : nat) (s : Session) : Session :=
  mkSession (window_size s) (packet_loss_rate s) (base s) (next_seq s)
    (running s) (timer_active s) (timer_thread s) (stats s) (packet_data s)
    (sent_packets s) (sendto_calls s) (armed s) (expired s) v (phase s)
    (listener s).

Definition set_phase (v : Phase) (s : Session) : Session :=
  mkSession (window_size s) (packet_loss_rate s) (base s) (next_seq s)
    (running s) (timer_active s) (timer_thread s) (stats s) (packet_data s)
    (sent_packets s) (sendto_calls s) (armed s) (expired s) (spawned s) v
    (listener s).

Definition set_listener (v : ListenerAt) (s : Session) : Session :=
  mkSession (window_size s) (packet_loss_rate s) (base s) (next_seq s)
    (running s) (timer_active s) (timer_thread s) (stats s) (packet_data s)
    (sent_packets s) (sendto_calls s) (armed s) (expired s) (spawned s)
    (phase s) v.

Definition set_packets_sent (v : Z) (c : Stats) : Stats :=
  mkStats v (packets_lost c) (retransmissions c) (acks_received c)
    (timeouts c) (total_packets c).

Definition set_packets_lost (v : Z) (c : Stats) : Stats :=
  mkStats (packets_sent c) v (retransmissions c) (acks_received c)
    (timeouts c) (total_packets c).

Definition set_retransmissions (v : Z) (c : Stats) : Stats :=
  mkStats (packets_sent c) (packets_lost c) v (acks_received c) (timeouts c)
    (total_packets c).

Definition set_acks_received (v : Z) (c : Stats) : Stats :=
  mkStats (packets_sent c) (packets_lost c) (retransmissions c) v
    (timeouts c) (total_packets c).

Definition set_timeouts (v : Z) (c : Stats) : Stats :=
  mkStats (packets_sent c) (packets_lost c) (retransmissions c)
    (acks_received c) v (total_packets c).

Definition set_total_packets (v : Z) (c : Stats) : Stats :=
  mkStats (packets_sent c) (packets_lost c) (retransmissions c)
    (acks_received c) (timeouts c) v.

Definition bump (f : Stats -> Z) (set : Z -> Stats -> Stats) (s : Session)
  : Session :=
  set_stats (set (f (stats s) + 1) (stats s)) s.

(** ** Construction and the first lines of [start] *)

(** [GBNClient.__init__] *)
Definition new_client (window_size : Z) (packet_loss_rate : Q) : Session :=
  {| window_size := window_size; packet_loss_rate := packet_loss_rate;
     base := 0; next_seq := 0; running := false;
     timer_active := false; timer_thread := None;
     stats := mkStats 0 0 0 0 0 0;
     packet_data := ∅; sent_packets := ∅;
     sendto_calls := []; armed := []; expired := []; spawned := 0;
     phase := InSendPackets; listener := AtWhile |}.

(** [start], up to the call of [send_packets]: the socket is open,
    [running] is set, the packet count is recorded and the listener thread
    has been started. *)
Definition started (window_size : Z) (packet_loss_rate : Q) (num_packets : Z)
  : Session :=
  let s := new_client window_size packet_loss_rate in
  set_stats (set_total_packets num_packets (stats s)) (set_running true s).

(** ** Retransmission timer *)

Definition start_timer (s : Session) : Session :=
  if timer_active s then s
  else
    let t := spawned s in
    set_spawned (S t)
      (set_armed (armed s ++ [t])
        (set_timer_thread (Some t) (set_timer_active true s))).

(** [Timer.cancel()]: stops the timer if it is still waiting. *)
Definition cancel (t : nat) (s : Session) : Session :=
  set_armed (filter (λ u, u ≠ t) (armed s)) s.

Definition stop_timer (s : Session) : Session :=
  match timer_active s, timer_thread s with
  | true, Some t => set_timer_active false (cancel t s)
  | _, _ => s
  end.

Definition restart_timer (s : Session) : Session :=
  start_timer (stop_timer s).

(** ** Sending *)

(** What the environment decides during a transmission: the value returned
    by [random.random()] in the call of [send_packet] for a sequence number,
    and whether [socket.sendto] returns ([true]) or raises. *)
Record SendEnv := mkSendEnv {
  random_random : Z -> Q;
  sendto_returns : Z -> bool
}.

(** [socket.sendto(packet, server_addr)]: the call is recorded whether or
    not it raises. *)
Definition sendto (packet : list byte) (s : Session) : Session :=
  set_sendto_calls (sendto_calls s ++ [packet]) s.

(** [send_packet].  Every exception raised in its body is caught by its
    [except] clause, which logs and returns. *)
Definition send_packet (env : SendEnv) (seq_num : Z) (s : Session) : Session :=
  if negb (packable seq_num) then s (* struct.error, nothing stored *)
  else
    let packet := make_packet seq_num in
    let s := set_packet_data (<[seq_num := packet]> (packet_data s)) s in
    if Qle_bool (random_random env seq_num) (packet_loss_rate s) then
      bump packets_lost set_packets_lost s
    else
      let s := sendto packet s in
      if sendto_returns env seq_num then
        bump packets_sent set_packets_sent
          (set_sent_packets (<[seq_num := packet]> (sent_packets s)) s)
      else s.

(** Guard of the inner [while] of [send_packets]. *)
Definition window_open (num_packets : Z) (s : Session) : bool :=
  (next_seq s <? base s + window_size s) && (next_seq s <? num_packets)
  && running s.

(** Body of the inner [while] of [send_packets]. *)
Definition send_next (env : SendEnv) (s : Session) : Session :=
  set_next_seq (next_seq s + 1) (send_packet env (next_seq s) s).

(** The inner [while] of [send_packets]; [fuel] bounds the iterations. *)
Fixpoint send_window (fuel : nat) (env : SendEnv) (num_packets : Z)
    (s : Session) : Session :=
  match fuel with
  | O => s
  | S fuel =>
      if window_open num_packets s
      then send_window fuel env num_packets (send_next env s)
      else s
  end.

(** The body of [with self.lock:] in [send_packets].  The inner loop stops
    by itself within [num_packets - next_seq] iterations
    ([send_window_closed]), so the fuel is never used up. *)
Definition send_packets_locked (env : SendEnv) (num_packets : Z)
    (s : Session) : Session :=
  let s := send_window (Z.to_nat (num_packets - next_seq s)) env num_packets s in
  if negb (timer_active s) && (base s <? next_seq s) then start_timer s else s.

(** Guard of the outer [while] of [send_packets]. *)
Definition send_packets_guard (num_packets : Z) (s : Session) : bool :=
  (base s <? num_packets) && running s.

(** ** The critical section cut short

    A [KeyboardInterrupt] raised while the main thread is inside
    [with self.lock] leaves the section at once (the lock is released) with
    the statements executed so far done and the others not. *)

(** Points inside [send_packet(self.next_seq)], named by the last statement
    executed: [packet_data[seq_num] = packet], [socket.sendto],
    [sent_packets[seq_num] = packet], or the whole call, before
    [self.next_seq += 1]. *)
Inductive SendCut :=
| AfterStore
| AfterSendto
| AfterSentPackets
| AfterReturn.

(** Points inside [start_timer]: after [self.timer_active = True], or after
    the [Timer] has been created and assigned, before its [start()]. *)
Inductive TimerCut :=
| AfterFlag
| AfterCreation.

Inductive Cut :=
| AtInnerTest
| InSendPacket (c : SendCut)
| InStartTimer (c : TimerCut).

(** [send_packet] up to the point [c], or to its [return] if that comes
    first. *)
Definition send_packet_cut (c : SendCut) (env : SendEnv) (seq_num : Z)
    (s : Session) : Session :=
  if negb (packable seq_num) then s
  else
    let packet := make_packet seq_num in
    let s := set_packet_data (<[seq_num := packet]> (packet_data s)) s in
    match c with
    | AfterStore => s
    | _ =>
        if Qle_bool (random_random env seq_num) (packet_loss_rate s) then
          bump packets_lost set_packets_lost s
        else
          let s := sendto packet s in
          match c with
          | AfterSendto => s
          | _ =>
              if sendto_returns env seq_num then
                let s :=
                  set_sent_packets (<[seq_num := packet]> (sent_packets s)) s
                in
                match c with
                | AfterSentPackets => s
                | _ => bump packets_sent set_packets_sent s
                end
              else s
          end
    end.

(** [start_timer], entered with the flag off, up to the point [c]. *)
Definition start_timer_cut (c : TimerCut) (s : Session) : Session :=
  match c with
  | AfterFlag => set_timer_active true s
  | AfterCreation =>
      set_spawned (S (spawned s))
        (set_timer_thread (Some (spawned s)) (set_timer_active true s))
  end.

(** [j] whole iterations of the inner [while] of [send_packets]. *)
Fixpoint send_some (j : nat) (env : SendEnv) (num_packets : Z) (s : Session)
  : option Session :=
  match j with
  | O => Some s
  | S j =>
      if window_open num_packets s
      then send_some j env num_packets (send_next env s)
      else None
  end.

(** The body of [with self.lock:] in [send_packets], left at the point [c]
    after [j] whole iterations of the inner loop: at the test of that loop,
    inside the call of [send_packet] that follows a test that passed, or
    inside the call of [start_timer] that follows the loop. *)
Definition send_packets_cut (env : SendEnv) (num_packets : Z) (j : nat)
    (c : Cut) (s : Session) : option Session :=
  match send_some j env num_packets s with
  | Some s =>
      match c with
      | AtInnerTest => Some s
      | InSendPacket c =>
          if window_open num_packets s
          then Some (send_packet_cut c env (next_seq s) s)
          else None
      | InStartTimer c =>
          if negb (window_open num_packets s) && negb (timer_active s)
             && (base s <? next_seq s)
          then Some (start_timer_cut c s)
          else None
      end
  | None => None
  end.

(** ** Acknowledgments *)

(** [for seq in list(d.keys()): if seq <= ack_num: del d[seq]] *)
Definition purge (ack_num : Z) (d : gmap Z (list byte)) : gmap Z (list byte) :=
  foldr (λ seq d, if seq <=? ack_num then delete seq d else d) d
        (map_to_list d).*1.

Definition handle_ack (ack_num : Z) (s : Session) : Session :=
  let s := bump acks_received set_acks_received s in
  if base s <=? ack_num then
    let s := set_base (ack_num + 1) s in
    let s := set_sent_packets (purge ack_num (sent_packets s)) s in
    let s := set_packet_data (purge ack_num (packet_data s)) s in
    if base s <? next_seq s then restart_timer s else stop_timer s
  else s.

(** What one [socket.recvfrom(1024)] of the listener does. *)
Inductive Received :=
| Datagram (data : list byte)
| SocketTimeout
| SocketError.

Inductive Exc := ExcSocketTimeout | ExcOther.

(** How a [try] body ends. *)
Inductive Completion :=
| Returns (s : Session)
| Raises (e : Exc) (s : Session).

(** The [try] body of [receive_acks]. *)
Definition receive_acks_try (r : Received) (s : Session) : Completion :=
  match r with
  | Datagram data =>
      if (length data =? 4)%nat then
        match struct_unpack_I data with
        | Some ack_num => Returns (handle_ack ack_num s)
        | None => Raises ExcOther s
        end
      else Returns s
  | SocketTimeout => Raises ExcSocketTimeout s
  | SocketError => Raises ExcOther s
  end.

(** One iteration of [receive_acks]: both [except] clauses return to the
    loop ([continue], or a log line). *)
Definition receive_acks_iter (r : Received) (s : Session) : Session :=
  match receive_acks_try r s with
  | Returns s => s
  | Raises _ s => s
  end.

(** ** Timeout *)

(** One iteration of the [for] loop of [handle_timeout]. *)
Definition retransmit (ok : Z -> bool) (s : Session) (seq_num : Z) : Session :=
  match packet_data s !! seq_num with
  | Some packet =>
      let s := sendto packet s in
      if ok seq_num then
        bump retransmissions set_retransmissions
          (set_sent_packets (<[seq_num := packet]> (sent_packets s)) s)
      else s
  | None => s
  end.

(** [range(a, b)] *)
Definition range (a b : Z) : list Z := seqZ a (b - a).

(** [handle_timeout]; [ok seq] tells whether the [sendto] for [seq] returns. *)
Definition handle_timeout (ok : Z -> bool) (s : Session) : Session :=
  if negb (running s) then s
  else
    let s := bump timeouts set_timeouts s in
    let s := foldl (retransmit ok) s (range (base s) (next_seq s)) in
    start_timer (set_timer_active false s).

(** ** End of the session *)

(** [stop] *)
Definition stop (s : Session) : Session :=
  stop_timer (set_running false s).

(** The [if] that ends [wait_for_completion]. *)
Definition report (s : Session) : Report :=
  if total_packets (stats s) <=? base s then AllConfirmed
  else Partially (base s) (total_packets (stats s)).

Definition finish (s : Session) : Session :=
  let r := report s in set_phase (Stopped (Some r)) (stop s).

(** One step of the main thread:
    - the test of the outer loop of [send_packets], which leads to the
      critical section or to [wait_for_completion];
    - the critical section of [send_packets], after which the thread
      sleeps and comes back to the test;
    - the test of the loop of [wait_for_completion] and, if it passes,
      the sleep and the comparison with [max_wait]; [deadline] is the
      value of [time.time() - start_time > max_wait] if the step evaluates
      it;
    - the [if] that ends [wait_for_completion], which reads [base] again
      and reports, and the [finally] clause of [start];
    - after a [KeyboardInterrupt], the [finally] clause of [start], and then
      the handler in [main]: each calls [stop]. *)
Definition main_step (env : SendEnv) (deadline : bool) (s : Session)
  : option Session :=
  match phase s with
  | InSendPackets =>
      if send_packets_guard (total_packets (stats s)) s
      then Some (set_phase AtLock s)
      else Some (set_phase InWaitForCompletion s)
  | AtLock =>
      Some (set_phase InSendPackets
              (send_packets_locked env (total_packets (stats s)) s))
  | InWaitForCompletion =>
      if (base s <? total_packets (stats s)) && running s then
        if deadline then Some (set_phase AfterWait s) else Some s
      else Some (set_phase AfterWait s)
  | AfterWait => Some (finish s)
  | Raised => Some (set_phase Caught (stop s))
  | Caught => Some (set_phase (Stopped None) (stop s))
  | Stopped _ => None
  end.

(** ** Transitions *)

(** What can happen next:
    - [Main]: the main thread takes its next step;
    - [ListenerLoop]: the listener thread evaluates [while self.running]
      and enters the [try] or leaves [receive_acks];
    - [Listener r]: the listener thread, inside the [try], gets [r] from
      [recvfrom], handles it, and comes back to the test of its loop;
    - [Expire t]: the interval of the armed timer [t] elapses and its
      thread calls [handle_timeout], which waits for [self.lock];
    - [Timeout t ok]: the thread of the expired timer [t] gets the lock
      and runs the body of [handle_timeout];
    - [Interrupt]: a [KeyboardInterrupt] is raised while the main thread is
      in [send_packets] outside the critical section (at the test of the
      outer loop, waiting for the lock, asleep) or in
      [wait_for_completion];
    - [InterruptLocked env j c]: the main thread gets the lock, and a
      [KeyboardInterrupt] is raised at the point [c] of the critical
      section of [send_packets] after [j] whole iterations of its loop.
    One [KeyboardInterrupt] is followed: a second one, raised while [stop]
    runs, is not. *)
Inductive Event :=
| Main (env : SendEnv) (deadline : bool)
| ListenerLoop
| Listener (r : Received)
| Expire (t : nat)
| Timeout (t : nat) (ok : Z -> bool)
| Interrupt
| InterruptLocked (env : SendEnv) (j : nat) (c : Cut).

Definition memb (t : nat) (l : list nat) : bool := bool_decide (t ∈ l).

Definition step (e : Event) (s : Session) : option Session :=
  match e with
  | Main env deadline => main_step env deadline s
  | ListenerLoop =>
      match listener s with
      | AtWhile =>
          Some (set_listener (if running s then InTry else Returned) s)
      | _ => None
      end
  | Listener r =>
      match listener s with
      | InTry => Some (set_listener AtWhile (receive_acks_iter r s))
      | _ => None
      end
  | Expire t =>
      if memb t (armed s) then
        Some (set_expired (expired s ++ [t])
               (set_armed (filter (λ u, u ≠ t) (armed s)) s))
      else None
  | Timeout t ok =>
      if memb t (expired s) then
        Some (handle_timeout ok
               (set_expired (filter (λ u, u ≠ t) (expired s)) s))
      else None
  | Interrupt =>
      match phase s with
      | InSendPackets | AtLock | InWaitForCompletion | AfterWait =>
          Some (set_phase Raised s)
      | _ => None
      end
  | InterruptLocked env j c =>
      match phase s with
      | AtLock =>
          match send_packets_cut env (total_packets (stats s)) j c s with
          | Some s' => Some (set_phase Raised s')
          | None => None
          end
      | _ => None
      end
  end.

(** A run: the events are taken from left to right; [None] if one of them
    is not enabled or is refused by [allowed]. *)
Fixpoint run_if (allowed : Session -> Event -> bool) (evs : list Event)
    (s : Session) : option Session :=
  match evs with
  | [] => Some s
  | e :: evs =>
      if allowed s e then
        match step e s with
        | Some s' => run_if allowed evs s'
        | None => None
        end
      else None
  end.

Definition run : list Event -> Session -> option Session :=
  run_if (λ _ _, true).

(** The state after a run ([s0] itself if the run is not possible). *)
Definition after (evs : list Event) (s0 : Session) : Session :=
  default s0 (run evs s0).

(** * Vocabulary of the properties *)

(** ** Views of the state *)

(** The window, the packet count and the retransmission store. *)
Definition frame (s : Session) :=
  (window_size s, total_packets (stats s), base s, next_seq s, packet_data s).

(** The session's control state. *)
Definition control (s : Session) := (running s, phase s).

(** The timer flag and the timers of the environment. *)
Definition timers (s : Session) :=
  (timer_active s, timer_thread s, armed s, expired s, spawned s).

(** A [KeyboardInterrupt] has been raised. *)
Definition interrupted (s : Session) : bool :=
  match phase s with
  | Raised | Caught | Stopped None => true
  | _ => false
  end.

(** ** Environments and events of the examples *)

(** Nothing is dropped and no socket call fails. *)
Definition lossless : SendEnv := mkSendEnv (λ _, 1 # 2)%Q (λ _, true).

(** [random.random()] returns 0.0 for every packet. *)
Definition draws_zero : SendEnv := mkSendEnv (λ _, 0%Q) (λ _, true).

(** Packet 2 is dropped, every other packet is sent. *)
Definition drops_2 : SendEnv :=
  mkSendEnv (λ q, if q =? 2 then 0 else 1 # 2)%Q (λ _, true).

(** The listener receives the acknowledgment datagram for [k]. *)
Definition ack (k : Z) : Event := Listener (Datagram (struct_pack_I k)).

(** The main thread passes the test of the outer loop of [send_packets]
    and goes through the critical section. *)
Definition produce (env : SendEnv) : list Event :=
  [Main env false; Main env false].

(** The listener passes the test of its loop and receives the
    acknowledgment for [k]. *)
Definition acked (k : Z) : list Event := [ListenerLoop; ack k].

(** The main thread finds the test of the outer loop of [send_packets]
    false and then the test of the loop of [wait_for_completion], reports
    and stops the client. *)
Definition complete (env : SendEnv) : list Event :=
  [Main env false; Main env false; Main env false].

(** Scenario A of the specification when no draw is zero: for each packet
    in turn, a pass of the producer and the acknowledgment of the packet;
    then the main thread leaves [send_packets] and [wait_for_completion]. *)
Definition scenario_A : list Event :=
  concat (map (λ k, produce lossless ++ acked k) (seqZ 0 15))
  ++ complete lossless.

(** ** Kinds of run *)

(** Every acknowledgment processed is for a packet already sent. *)
Definition ack_in_flight (s : Session) (e : Event) : bool :=
  match e with
  | Listener (Datagram data) =>
      match struct_unpack_I data with
      | Some ack_num => ack_num <? next_seq s
      | None => true
      end
  | _ => true
  end.

(** No acknowledgment arrives and nobody interrupts. *)
Definition no_ack (s : Session) (e : Event) : bool :=
  match e with
  | Listener (Datagram data) => negb (length data =? 4)%nat
  | Interrupt | InterruptLocked _ _ _ => false
  | _ => true
  end.

(** A timer that has expired gets [self.lock] before any other thread
    does: no step of the main thread or of the listener and no interrupt
    comes between the expiry and its handler. *)
Definition prompt (s : Session) (e : Event) : bool :=
  match e with
  | Expire _ | Timeout _ _ => true
  | _ => match expired s with [] => true | _ => false end
  end.

(** ** State predicates *)


Definition upper_bound (ws : Z) (s : Session) : Prop :=
  window_size s = ws ∧ next_seq s <= base s + ws.

Definition lower_bound (s : Session) : Prop := base s <= next_seq s.

(** [base] has not passed [next_seq] and no entry is left below [base]. *)
Definition no_stale (s : Session) : Prop :=
  base s <= next_seq s ∧ ∀ k, is_Some (packet_data s !! k) → base s <= k.


(** The producer is inside [send_packets] with nothing acknowledged. *)
Definition stuck (n : Z) (s : Session) : Prop :=
  (phase s = InSendPackets ∨ phase s = AtLock) ∧ running s = true ∧
  base s = 0 ∧ total_packets (stats s) = n.

(** [wait_for_completion] starts only when every packet is confirmed, and
    then reports just that. *)
Definition waits_when_done (n : Z) (s : Session) : Prop :=
  total_packets (stats s) = n ∧
  match phase s with
  | InSendPackets | AtLock => running s = true
  | InWaitForCompletion | AfterWait => running s = true ∧ n <= base s
  | Stopped (Some r) => r = AllConfirmed
  | Raised | Caught | Stopped None => True
  end.

(** What the store holds in a session of [n] packets: entries only for
    sequence numbers below [next_seq], each the packet built for its key,
    and one for every sequence number of [base, ..., next_seq - 1].  After a
    [KeyboardInterrupt] there may be an entry for [next_seq] itself, stored
    by the call of [send_packet] that was cut short. *)
Record Inv (n : Z) (s : Session) : Prop := mkInv {
  inv_total : total_packets (stats s) = n;
  inv_base : 0 <= base s;
  inv_next : 0 <= next_seq s <= Z.max 0 n;
  inv_data : ∀ k b, packet_data s !! k = Some b →
               b = make_packet k ∧ k <= next_seq s ∧
               (interrupted s = false → k < next_seq s);
  inv_cover : ∀ k, base s <= k < next_seq s →
               packet_data s !! k = Some (make_packet k)
}.

(** The timers still due to call [handle_timeout]. *)
Definition pending (s : Session) : list nat := armed s ++ expired s.

(** When no expiry races with another thread, nothing is pending or the
    flag is set and the recorded timer is the only one pending. *)
Definition lone_timer (s : Session) : Prop :=
  pending s = [] ∨
  timer_active s = true ∧ ∃ t, timer_thread s = Some t ∧ pending s = [t].

(** The two states of the timer in such a run while the session runs and
    has not been interrupted: idle with the window empty, or due, with the
    recorded timer the only one pending and the window not empty. *)
Inductive one_timer (s : Session) : Prop :=
| timer_idle :
    timer_active s = false → armed s = [] → expired s = [] →
    (running s = true → next_seq s <= base s) →
    one_timer s
| timer_due (t : nat) :
    timer_active s = true → timer_thread s = Some t → pending s = [t] →
    running s = true → base s < next_seq s →
    one_timer s.

(** ** Vocabulary of the further properties *)

(** What the client has on record: the frame, the packets it believes
    sent, the socket calls made, the counters and the loss rate.  The timer
    methods, [stop] and the scheduling of threads leave it alone. *)
Definition ledger (s : Session) :=
  (frame s, sent_packets s, sendto_calls s, stats s, packet_loss_rate s).

(** No counter decreases and the packet count stays. *)
Definition stats_le (c c' : Stats) : Prop :=
  packets_sent c <= packets_sent c' ∧ packets_lost c <= packets_lost c' ∧
  retransmissions c <= retransmissions c' ∧
  acks_received c <= acks_received c' ∧ timeouts c <= timeouts c' ∧
  total_packets c' = total_packets c.

(** [s'] is [s] further on: nothing has gone back and no socket call has
    been undone. *)
Definition advanced (s s' : Session) : Prop :=
  base s <= base s' ∧ next_seq s <= next_seq s' ∧
  stats_le (stats s) (stats s') ∧
  sendto_calls s `prefix_of` sendto_calls s' ∧
  window_size s' = window_size s ∧
  packet_loss_rate s' = packet_loss_rate s.




(** Every entry of the store is the packet of its key, an encodable
    sequence number below the packet count [n] and below [next_seq] (or
    [next_seq] itself, after a [KeyboardInterrupt] that cut [send_packet]
    short); [sent_packets] holds some of these entries; and every socket
    call was made with such a packet. *)
Record Wire (n : Z) (s : Session) : Prop := mkWire {
  wire_total : total_packets (stats s) = n;
  wire_data : ∀ k b, packet_data s !! k = Some b →
                b = make_packet k ∧ packable k = true ∧ k < n ∧
                k <= next_seq s ∧ (interrupted s = false → k < next_seq s);
  wire_sent : sent_packets s ⊆ packet_data s;
  wire_calls : Forall (λ p, ∃ k, packable k = true ∧ k < n ∧
                            p = make_packet k) (sendto_calls s)
}.

(** No socket call of the event raises. *)
Definition reliable (e : Event) : Prop :=
  match e with
  | Main env _ | InterruptLocked env _ _ => ∀ q, sendto_returns env q = true
  | Timeout _ ok => ∀ q, ok q = true
  | _ => True
  end.

(** The counters agree with the window and with the socket calls: every
    first transmission counted is one of the [next_seq] made (or the one
    more that a [KeyboardInterrupt] cut short before [next_seq += 1]), and
    every transmission counted is a socket call. *)
Definition accounted (s : Session) : Prop :=
  0 <= packets_sent (stats s) ∧ 0 <= packets_lost (stats s) ∧
  0 <= retransmissions (stats s) ∧ 0 <= next_seq s ∧
  packets_sent (stats s) + packets_lost (stats s)
    <= next_seq s + (if interrupted s then 1 else 0) ∧
  packets_sent (stats s) + retransmissions (stats s)
    <= Z.of_nat (length (sendto_calls s)).

(** The same with nothing missing, as when no socket call raises and no
    [KeyboardInterrupt] has been raised. *)
Definition accounted_exactly (s : Session) : Prop :=
  0 <= next_seq s ∧ total_packets (stats s) <= 2 ^ 32 ∧
  (interrupted s = false →
   packets_sent (stats s) + packets_lost (stats s) = next_seq s ∧
   packets_sent (stats s) + retransmissions (stats s)
     = Z.of_nat (length (sendto_calls s))).

(** The environment drops nothing at loss rate [rate] and no [sendto] of
    a first transmission raises. *)
Definition delivers (rate : Q) (env : SendEnv) : Prop :=
  ∀ q, Qle_bool (random_random env q) rate = false ∧
       sendto_returns env q = true.

(** The run of a session of [n] packets in which every acknowledgment
    arrives in time and in order: for each packet in turn, a pass of the
    producer and the acknowledgment of the packet; then the main thread
    finds the test of [send_packets] false and goes through
    [wait_for_completion]. *)
Definition in_order_run (env : SendEnv) (n : Z) : list Event :=
  flat_map (λ k, produce env ++ acked k) (seqZ 0 n) ++ complete env.

(** The session after [k] packets have been acknowledged in that run. *)
Definition served (ws : Z) (rate : Q) (n k : Z) (s : Session) : Prop :=
  running s = true ∧ window_size s = ws ∧ packet_loss_rate s = rate ∧
  total_packets (stats s) = n ∧
  base s = k ∧ k <= next_seq s <= n ∧
  sendto_calls s = map make_packet (seqZ 0 (next_seq s)) ∧
  packets_sent (stats s) = next_seq s ∧
  packets_lost (stats s) = 0 ∧ retransmissions (stats s) = 0 ∧
  phase s = InSendPackets ∧ listener s = AtWhile.

(** [s1] is [s] after the producer has sent some more packets, each put
    on the wire once and counted as sent; the window closes at
    [min (base + window_size) n]. *)
Definition sent_on (n : Z) (s s1 : Session) : Prop :=
  window_size s1 = window_size s ∧
  packet_loss_rate s1 = packet_loss_rate s ∧
  total_packets (stats s1) = total_packets (stats s) ∧
  base s1 = base s ∧ running s1 = running s ∧ phase s1 = phase s ∧
  retransmissions (stats s1) = retransmissions (stats s) ∧
  packets_lost (stats s1) = packets_lost (stats s) ∧
  next_seq s <= next_seq s1
    <= Z.max (next_seq s) (Z.min (base s + window_size s) n) ∧
  sendto_calls s1
    = sendto_calls s
      ++ map make_packet (seqZ (next_seq s) (next_seq s1 - next_seq s)) ∧
  packets_sent (stats s1)
    = packets_sent (stats s) + (next_seq s1 - next_seq s).

(** The window and both dictionaries. *)
Definition window_view (s : Session) :=
  (base s, next_seq s, packet_data s, sent_packets s).

(** * Properties *)

(** ** The codec *)

Lemma Z_of_byte_range b : 0 <= Z_of_byte b < 256.
Proof. unfold Z_of_byte. pose proof (Byte.to_N_bounded b). lia. Qed.

Lemma Z_of_byte_of_Z z : Z_of_byte (byte_of_Z z) = z mod 256.
Proof.
  unfold Z_of_byte, byte_of_Z.
  pose proof (Z.mod_pos_bound z 256 eq_refl) as Hz.
  destruct (Byte.of_N (Z.to_N (z mod 256))) as [b|] eqn:E.
  - apply Byte.to_of_N in E. rewrite E. lia.
  - apply Byte.of_N_None_iff in E. lia.
Qed.

Lemma struct_unpack_I_length data :
  is_Some (struct_unpack_I data) ↔ length data = 4%nat.
Proof.
  destruct data as [|b0 [|b1 [|b2 [|b3 [|b4 data]]]]]; simpl;
    split; try done; try (by intros [? ?]); eauto.
Qed.

Lemma struct_unpack_I_range data a :
  struct_unpack_I data = Some a → 0 <= a < 2 ^ 32.
Proof.
  destruct data as [|b0 [|b1 [|b2 [|b3 [|b4 data]]]]]; simpl; try done.
  intros [= <-].
  pose proof (Z_of_byte_range b0). pose proof (Z_of_byte_range b1).
  pose proof (Z_of_byte_range b2). pose proof (Z_of_byte_range b3). lia.
Qed.

(** Decoding inverts encoding on the encodable numbers. *)
Lemma struct_unpack_pack n :
  packable n = true → struct_unpack_I (struct_pack_I n) = Some n.
Proof.
  unfold packable. intros [H0 H1]%andb_prop.
  apply Z.leb_le in H0. apply Z.ltb_lt in H1.
  unfold struct_pack_I, struct_unpack_I. f_equal.
  rewrite !Z_of_byte_of_Z, !Z.shiftr_div_pow2 by lia.
  change (2 ^ 24) with 16777216. change (2 ^ 16) with 65536.
  change (2 ^ 8) with 256. change (2 ^ 32) with 4294967296 in H1.
  Z.div_mod_to_equations. lia.
Qed.

(** The packet for sequence number 7, and a four-digit payload. *)
Example make_packet_7 :
  make_packet 7
  = [x00; x00; x00; x07] ++ list_byte_of_string "Messaggio 007".
Proof. vm_compute. reflexivity. Qed.

Example make_packet_1234 :
  make_packet 1234
  = [x00; x00; x04; xd2] ++ list_byte_of_string "Messaggio 1234".
Proof. vm_compute. reflexivity. Qed.

(** ** Dictionaries *)

Lemma purge_list_lookup (ack_num k : Z) (l : list Z) (d : gmap Z (list byte)) :
  foldr (λ seq d, if seq <=? ack_num then delete seq d else d) d l !! k
  = if decide (k <= ack_num ∧ k ∈ l) then None else d !! k.
Proof.
  induction l as [|q l IH]; simpl.
  - rewrite decide_False; [done|]. intros [_ H]. inversion H.
  - assert (Hcons : k ∈ q :: l ↔ k = q ∨ k ∈ l) by set_solver.
    destruct (Z.leb_spec q ack_num) as [Hq|Hq].
    + rewrite lookup_delete, IH.
      destruct (decide (q = k)) as [->|Hne].
      * rewrite decide_True by tauto. done.
      * destruct (decide (k <= ack_num ∧ k ∈ l)) as [H|H].
        -- rewrite decide_True by tauto. done.
        -- rewrite decide_False; [done|]. intros [? [?|?]%Hcons]; auto.
    + rewrite IH. destruct (decide (k <= ack_num ∧ k ∈ l)) as [H|H].
      * rewrite decide_True by tauto. done.
      * rewrite decide_False; [done|]. intros [? [?|?]%Hcons]; [lia | auto].
Qed.

(** Deleting while walking over the keys leaves exactly the entries above
    the acknowledged number. *)
Lemma purge_lookup (ack_num k : Z) (d : gmap Z (list byte)) :
  purge ack_num d !! k = if decide (k <= ack_num) then None else d !! k.
Proof.
  unfold purge. rewrite purge_list_lookup.
  destruct (decide (k <= ack_num)) as [Hk|Hk].
  - case_decide as H; [done|].
    destruct (d !! k) as [b|] eqn:E; [|done].
    exfalso. apply H. split; [done|].
    apply list_elem_of_fmap. exists (k, b). split; [done|].
    by apply elem_of_map_to_list.
  - case_decide as H; [tauto | done].
Qed.

(** ** What the methods leave alone *)

Lemma tuple5_inv {A B C D E} {a a' : A} {b b' : B} {c c' : C} {d d' : D}
    {e e' : E} :
  (a, b, c, d, e) = (a', b', c', d', e') →
  a = a' ∧ b = b' ∧ c = c' ∧ d = d' ∧ e = e'.
Proof. by intros [= -> -> -> -> ->]. Qed.

Lemma pair_inv {A B} {a a' : A} {b b' : B} :
  (a, b) = (a', b') → a = a' ∧ b = b'.
Proof. by intros [= -> ->]. Qed.

Ltac methods :=
  unfold handle_timeout, handle_ack, restart_timer, stop, finish, send_next;
  unfold stop_timer, start_timer, cancel, send_packet, retransmit;
  unfold send_packet_cut, start_timer_cut;
  unfold sendto, bump.

Ltac by_cases := intros; methods; repeat case_match; simpl in *; done.

Lemma start_timer_frame s : frame (start_timer s) = frame s.
Proof. by_cases. Qed.

Lemma stop_frame s : frame (stop s) = frame s.
Proof. by_cases. Qed.

Lemma retransmit_frame ok s q : frame (retransmit ok s q) = frame s.
Proof. by_cases. Qed.

Lemma start_timer_control s : control (start_timer s) = control s.
Proof. by_cases. Qed.

Lemma retransmit_control ok s q : control (retransmit ok s q) = control s.
Proof. by_cases. Qed.

Lemma retransmit_timers ok s q : timers (retransmit ok s q) = timers s.
Proof. by_cases. Qed.

Lemma retransmit_lost ok s q :
  packets_lost (stats (retransmit ok s q)) = packets_lost (stats s).
Proof. by_cases. Qed.

Lemma send_next_control env s : control (send_next env s) = control s.
Proof. by_cases. Qed.

Lemma send_next_timers env s : timers (send_next env s) = timers s.
Proof. by_cases. Qed.

(** One iteration of the producer's loop: only [next_seq] and the store
    change in the frame. *)
Lemma send_next_frame env s :
  frame (send_next env s)
  = (window_size s, total_packets (stats s), base s, next_seq s + 1,
     if packable (next_seq s)
     then <[next_seq s := make_packet (next_seq s)]> (packet_data s)
     else packet_data s).
Proof. by_cases. Qed.

Lemma handle_ack_frame ack_num s :
  frame (handle_ack ack_num s)
  = if base s <=? ack_num
    then (window_size s, total_packets (stats s), ack_num + 1, next_seq s,
          purge ack_num (packet_data s))
    else frame s.
Proof. unfold handle_ack. simpl. by_cases. Qed.

Lemma handle_ack_control ack_num s :
  control (handle_ack ack_num s) = control s.
Proof. by_cases. Qed.

(** A call of [send_packet] cut short has stored the packet, if it got that
    far, and has not moved [next_seq]. *)
Lemma send_packet_cut_frame c env q s :
  frame (send_packet_cut c env q s)
  = (window_size s, total_packets (stats s), base s, next_seq s,
     if packable q then <[q := make_packet q]> (packet_data s)
     else packet_data s).
Proof. by_cases. Qed.

Lemma send_packet_cut_control c env q s :
  control (send_packet_cut c env q s) = control s.
Proof. by_cases. Qed.

Lemma send_packet_cut_timers c env q s :
  timers (send_packet_cut c env q s) = timers s.
Proof. by_cases. Qed.

Lemma start_timer_cut_frame c s : frame (start_timer_cut c s) = frame s.
Proof. by_cases. Qed.

Lemma start_timer_cut_control c s : control (start_timer_cut c s) = control s.
Proof. by_cases. Qed.

(** The whole call is the cut at its return. *)
Lemma send_packet_cut_return env q s :
  send_packet_cut AfterReturn env q s = send_packet env q s.
Proof. by_cases. Qed.

Lemma interrupted_phase s s' :
  phase s' = phase s → interrupted s' = interrupted s.
Proof. unfold interrupted. by intros ->. Qed.

(** For the timers, an acknowledgment is a restart, a stop, or nothing. *)
Lemma handle_ack_timers ack_num s :
  timers (handle_ack ack_num s)
  = if base s <=? ack_num
    then if ack_num + 1 <? next_seq s
         then timers (restart_timer s) else timers (stop_timer s)
    else timers s.
Proof.
  unfold handle_ack, restart_timer, stop_timer, start_timer, cancel, bump.
  simpl. destruct (base s <=? ack_num); [|done]. simpl.
  destruct (ack_num + 1 <? next_seq s); simpl;
    destruct (timer_active s) eqn:Ea, (timer_thread s) eqn:Et; simpl;
    rewrite ?Ea, ?Et; done.
Qed.

(** ** The loops *)

Lemma send_window_preserves {A} (f : Session → A) env :
  (∀ s, f (send_next env s) = f s) →
  ∀ fuel n s, f (send_window fuel env n s) = f s.
Proof.
  intros Hf fuel n. induction fuel as [|fuel IH]; intros s; simpl; [done|].
  destruct (window_open n s); [|done]. by rewrite IH, Hf.
Qed.

(** A property kept by every iteration taken with the loop guard true is
    kept by the loop. *)
Lemma send_window_invariant (P : Session → Prop) env n :
  (∀ s, P s → window_open n s = true → P (send_next env s)) →
  ∀ fuel s, P s → P (send_window fuel env n s).
Proof.
  intros HP fuel. induction fuel as [|fuel IH]; intros s H; simpl; [done|].
  destruct (window_open n s) eqn:E; [|done]. by apply IH, HP.
Qed.

(** The same for a number of whole iterations. *)
Lemma send_some_invariant (P : Session → Prop) env n :
  (∀ s, P s → window_open n s = true → P (send_next env s)) →
  ∀ j s s', P s → send_some j env n s = Some s' → P s'.
Proof.
  intros HP j. induction j as [|j IH]; intros s s' H; simpl.
  - by intros [= <-].
  - destruct (window_open n s) eqn:E; [|done]. by apply IH, HP.
Qed.

(** The fuel given by [send_packets_locked] is enough: the loop ends with
    its guard false. *)
Lemma send_window_closed env n fuel s :
  n - next_seq s <= Z.of_nat fuel →
  window_open n (send_window fuel env n s) = false.
Proof.
  revert s. induction fuel as [|fuel IH]; intros s Hfuel; simpl.
  - unfold window_open.
    destruct (Z.ltb_spec (next_seq s) n); [lia|].
    by rewrite andb_false_r.
  - destruct (window_open n s) eqn:E; [|done]. apply IH.
    destruct (tuple5_inv (send_next_frame env s)) as (_ & _ & _ & En & _).
    lia.
Qed.

(** So the critical section of [send_packets] ends with the guard of its
    inner loop false, as the [while] does. *)
Lemma send_packets_locked_closed env n s :
  window_open n (send_packets_locked env n s) = false.
Proof.
  unfold send_packets_locked.
  set (s1 := send_window _ env n s).
  assert (H : window_open n s1 = false) by (apply send_window_closed; lia).
  case_match; [|done].
  destruct (tuple5_inv (start_timer_frame s1)) as (Ew & _ & Eb & En & _).
  destruct (pair_inv (start_timer_control s1)) as [Er _].
  unfold window_open in *. by rewrite Ew, Eb, En, Er.
Qed.

Lemma foldl_retransmit_preserves {A} (f : Session → A) ok :
  (∀ s q, f (retransmit ok s q) = f s) →
  ∀ l s, f (foldl (retransmit ok) s l) = f s.
Proof.
  intros Hf l. induction l as [|q l IH]; intros s; simpl; [done|].
  by rewrite IH, Hf.
Qed.

(** The [for] loop calls [sendto] with the stored bytes of every sequence
    number of its range that has an entry, in the order of the range. *)
Lemma foldl_retransmit_calls ok l s :
  sendto_calls (foldl (retransmit ok) s l)
  = sendto_calls s ++ omap (λ k, packet_data s !! k) l.
Proof.
  revert s. induction l as [|q l IH]; intros s; csimpl.
  - by rewrite app_nil_r.
  - rewrite IH.
    destruct (tuple5_inv (retransmit_frame ok s q)) as (_ & _ & _ & _ & Ed).
    rewrite Ed. unfold retransmit, sendto, bump.
    destruct (packet_data s !! q) as [p|]; [|done].
    destruct (ok q); simpl; by rewrite <- app_assoc.
Qed.

Lemma handle_timeout_frame ok s : frame (handle_timeout ok s) = frame s.
Proof.
  unfold handle_timeout. destruct (running s); [|done]. simpl.
  rewrite start_timer_frame.
  change (frame (set_timer_active false ?x)) with (frame x).
  by rewrite (foldl_retransmit_preserves frame ok (retransmit_frame ok)).
Qed.

Lemma handle_timeout_control ok s : control (handle_timeout ok s) = control s.
Proof.
  unfold handle_timeout. destruct (running s) eqn:E; [|done]. simpl.
  rewrite start_timer_control.
  change (control (set_timer_active false ?x)) with (control x).
  by rewrite (foldl_retransmit_preserves control ok (retransmit_control ok)).
Qed.

(** A timeout handled while the session runs: the calls made, and the
    timer armed afterwards. *)
Lemma handle_timeout_running ok s :
  running s = true →
  let s' := handle_timeout ok s in
  sendto_calls s'
    = sendto_calls s
      ++ omap (λ k, packet_data s !! k) (range (base s) (next_seq s)) ∧
  timer_active s' = true ∧ timer_thread s' = Some (spawned s) ∧
  armed s' = armed s ++ [spawned s] ∧ expired s' = expired s.
Proof.
  intros Hrun. unfold handle_timeout. rewrite Hrun. simpl.
  set (s0 := bump timeouts set_timeouts s).
  set (l := range (base s) (next_seq s)).
  destruct (tuple5_inv (foldl_retransmit_preserves timers ok
                          (retransmit_timers ok) l s0))
    as (_ & _ & Ea & Ee & Es).
  unfold start_timer. simpl. rewrite Ea, Ee, Es.
  split_and!; try done. by rewrite foldl_retransmit_calls.
Qed.

Lemma send_packets_locked_control env n s :
  control (send_packets_locked env n s) = control s.
Proof.
  unfold send_packets_locked.
  case_match; rewrite ?start_timer_control;
    apply send_window_preserves, send_next_control.
Qed.

Lemma send_packets_locked_base env n s :
  base (send_packets_locked env n s) = base s ∧
  total_packets (stats (send_packets_locked env n s)) = total_packets (stats s).
Proof.
  unfold send_packets_locked.
  set (f := λ s, (total_packets (stats s), base s)).
  set (s1 := send_window _ env n s).
  assert (H : f s1 = f s).
  { apply send_window_preserves. intros s0.
    destruct (tuple5_inv (send_next_frame env s0)) as (_ & Et & Eb & _ & _).
    unfold f. by rewrite Et, Eb. }
  injection H as Ht Hb.
  case_match; [|done].
  destruct (tuple5_inv (start_timer_frame s1)) as (_ & Et & Eb & _ & _).
  by rewrite Et, Eb.
Qed.

(** ** Runs *)

Lemma run_if_invariant (P : Session → Prop) allowed :
  (∀ e s s', P s → allowed s e = true → step e s = Some s' → P s') →
  ∀ evs s s', P s → run_if allowed evs s = Some s' → P s'.
Proof.
  intros Hstep evs. induction evs as [|e evs IH]; intros s s' H; simpl.
  - by intros [= <-].
  - destruct (allowed s e) eqn:Ea; [|done].
    destruct (step e s) as [s1|] eqn:Es; [|done]. eauto.
Qed.

(** A restricted run is a run. *)
Lemma run_if_run allowed evs s s' :
  run_if allowed evs s = Some s' → run evs s = Some s'.
Proof.
  unfold run. revert s. induction evs as [|e evs IH]; intros s; simpl; [done|].
  destruct (allowed s e); [|done]. destruct (step e s); [|done]. apply IH.
Qed.

(** A property of the frame is kept by every step once it is kept by an
    iteration of the producer's loop, by the acknowledgments allowed and by
    a call of [send_packet] cut short.  The property may depend on whether
    the session has been interrupted. *)
Lemma frame_step (P : Session → Prop) allowed :
  (∀ s s', frame s' = frame s →
           (interrupted s = true → interrupted s' = true) → P s → P s') →
  (∀ env s, P s → interrupted s = false →
            window_open (total_packets (stats s)) s = true →
            P (send_next env s)) →
  (∀ data ack_num s,
     P s → allowed s (Listener (Datagram data)) = true →
     struct_unpack_I data = Some ack_num → P (handle_ack ack_num s)) →
  (∀ c env s, P s → interrupted s = false →
              window_open (total_packets (stats s)) s = true →
              P (set_phase Raised (send_packet_cut c env (next_seq s) s))) →
  ∀ e s s', P s → allowed s e = true → step e s = Some s' → P s'.
Proof.
  intros Hframe Hsend Hack Hcut e s s' H Hallow.
  assert (Hsame : ∀ s1 s2, frame s2 = frame s1 → phase s2 = phase s1 →
                           P s1 → P s2).
  { intros s1 s2 Hf Hp. apply Hframe; [done|].
    by rewrite (interrupted_phase _ _ Hp). }
  assert (Hloop : ∀ env s1, P s1 → phase s1 = AtLock →
            ∀ s2, P s2 ∧ phase s2 = AtLock ∧
                  total_packets (stats s2) = total_packets (stats s1) →
                  window_open (total_packets (stats s1)) s2 = true →
                  P (send_next env s2) ∧ phase (send_next env s2) = AtLock ∧
                  total_packets (stats (send_next env s2))
                  = total_packets (stats s1)).
  { intros env s1 _ _ s2 (HP & Hph & Hn) Hopen.
    destruct (tuple5_inv (send_next_frame env s2)) as (_ & Et & _).
    destruct (pair_inv (send_next_control env s2)) as [_ Ep].
    split_and!; [|congruence.. ].
    apply Hsend; [done | unfold interrupted; by rewrite Hph | by rewrite Hn]. }
  destruct e as [env deadline| |r|t|t ok| |env j c]; simpl.
  - unfold main_step, finish.
    destruct (phase s) eqn:Eph.
    + case_match; intros [= <-];
        (apply (Hframe s); [done | unfold interrupted; by rewrite Eph | done]).
    + intros [= <-]. unfold send_packets_locked.
      set (n := total_packets (stats s)).
      set (s1 := send_window (Z.to_nat (n - next_seq s)) env n s).
      destruct (send_window_invariant
                  (λ s2, P s2 ∧ phase s2 = AtLock ∧ total_packets (stats s2) = n)
                  env n (Hloop env s H Eph) (Z.to_nat (n - next_seq s)) s)
        as (HP & Hp1 & _); [done|]. fold s1 in HP, Hp1.
      case_match;
        (apply (Hframe s1);
         [try done; apply start_timer_frame
         | unfold interrupted; by rewrite Hp1 | done]).
    + repeat case_match; intros [= <-]; try done;
        (apply (Hframe s);
         [done | unfold interrupted; by rewrite Eph | done]).
    + intros [= <-].
      apply (Hframe s);
        [apply stop_frame | unfold interrupted; by rewrite Eph | done].
    + intros [= <-]. apply (Hframe s); [apply stop_frame | done | done].
    + intros [= <-]. apply (Hframe s); [apply stop_frame | done | done].
    + done.
  - destruct (listener s); [|done..]. intros [= <-]. by apply (Hsame s).
  - destruct (listener s) eqn:El; [done| |done]. intros [= <-].
    unfold receive_acks_iter, receive_acks_try.
    assert (Hl : ∀ s1, P s1 → P (set_listener AtWhile s1))
      by (intros s1; by apply Hsame).
    apply Hl.
    destruct r as [data| |]; try done.
    destruct (length data =? 4)%nat; [|done].
    destruct (struct_unpack_I data) as [a|] eqn:Ed; [|done].
    by eapply Hack.
  - case_match; [|done]. intros [= <-]. by apply (Hsame s).
  - case_match; [|done]. intros [= <-].
    eapply Hsame; [apply handle_timeout_frame| |by apply (Hsame s)].
    by destruct (pair_inv (handle_timeout_control ok
         (set_expired (filter (λ u, u ≠ t) (expired s)) s))).
  - destruct (phase s) eqn:Eph; try done; intros [= <-];
      by apply (Hframe s).
  - destruct (phase s) eqn:Eph; try done.
    unfold send_packets_cut. set (n := total_packets (stats s)).
    destruct (send_some j env n s) as [s1|] eqn:Ej; [|done].
    destruct (send_some_invariant
                (λ s2, P s2 ∧ phase s2 = AtLock ∧ total_packets (stats s2) = n)
                env n (Hloop env s H Eph) j s s1)
      as (HP & Hp1 & Hn1); [done | done |].
    destruct c as [|c|c].
    + intros [= <-]. by apply (Hframe s1).
    + destruct (window_open n s1) eqn:Hopen; [|done]. intros [= <-].
      apply Hcut; [done | unfold interrupted; by rewrite Hp1 | by rewrite Hn1].
    + destruct (_ && _ && _); [|done]. intros [= <-].
      apply (Hframe s1); [exact (start_timer_cut_frame c s1) | done | done].
Qed.

(** The same for a property that does not depend on where the threads
    are: a call of [send_packet] cut short stores at most the packet for
    [next_seq]. *)
Lemma frame_step_plain (P : Session → Prop) allowed :
  (∀ s s', frame s' = frame s → P s → P s') →
  (∀ env s, P s → window_open (total_packets (stats s)) s = true →
            P (send_next env s)) →
  (∀ data ack_num s,
     P s → allowed s (Listener (Datagram data)) = true →
     struct_unpack_I data = Some ack_num → P (handle_ack ack_num s)) →
  (∀ s s', P s →
     frame s' = (window_size s, total_packets (stats s), base s, next_seq s,
                 <[next_seq s := make_packet (next_seq s)]> (packet_data s)) →
     P s') →
  ∀ e s s', P s → allowed s e = true → step e s = Some s' → P s'.
Proof.
  intros Hframe Hsend Hack Hstore. apply frame_step; [| |done|].
  - intros s s' Hf _. by apply Hframe.
  - intros env s H _. by apply Hsend.
  - intros c env s H _ _.
    pose proof (send_packet_cut_frame c env (next_seq s) s) as Hf.
    destruct (packable (next_seq s)).
    + by apply (Hstore s).
    + by apply (Hframe s).
Qed.

(** ** The recorded timer *)







Lemma receive_acks_iter_control r s :
  control (receive_acks_iter r s) = control s.
Proof.
  unfold receive_acks_iter, receive_acks_try.
  repeat case_match; simplify_eq; try done. apply handle_ack_control.
Qed.

(** No step undoes an interrupt, and no step sets [running]. *)
Lemma interrupted_step e s s' :
  step e s = Some s' → interrupted s = true → interrupted s' = true.
Proof.
  unfold interrupted at 1.
  destruct e as [env deadline| |r|t|t ok| |env j c]; simpl.
  - unfold main_step.
    destruct (phase s) as [| | | | | |[r|]]; try done; by intros [= <-].
  - destruct (listener s); [|done..]. by intros [= <-].
  - destruct (listener s); [done| |done]. intros [= <-].
    destruct (pair_inv (receive_acks_iter_control r s)) as [_ Ep].
    unfold interrupted. simpl. by rewrite Ep.
  - case_match; [|done]. by intros [= <-].
  - case_match; [|done]. intros [= <-].
    set (s1 := set_expired _ s).
    destruct (pair_inv (handle_timeout_control ok s1)) as [_ Ep].
    unfold interrupted. by rewrite Ep.
  - by destruct (phase s) as [| | | | | |[r|]].
  - by destruct (phase s) as [| | | | | |[r|]].
Qed.

Lemma send_some_control env n j s s' :
  send_some j env n s = Some s' → control s' = control s.
Proof.
  apply (send_some_invariant (λ s', control s' = control s)); [|done].
  intros s0 H _. by rewrite send_next_control.
Qed.

Lemma stop_running s : running (stop s) = false.
Proof. by_cases. Qed.

Lemma finish_running s : running (finish s) = false.
Proof. unfold finish. simpl. apply stop_running. Qed.

Lemma running_step e s s' :
  step e s = Some s' → running s' = true → running s = true.
Proof.
  destruct e as [env deadline| |r|t|t ok| |env j c]; simpl.
  - unfold main_step, finish.
    destruct (phase s); repeat case_match; intros [= <-]; try done;
      simpl; rewrite ?stop_running; try done.
    by destruct (pair_inv (send_packets_locked_control env
                             (total_packets (stats s)) s)) as [-> _].
  - destruct (listener s); [|done..]. by intros [= <-].
  - destruct (listener s); [done| |done]. intros [= <-].
    by destruct (pair_inv (receive_acks_iter_control r s)) as [<- _].
  - case_match; [|done]. by intros [= <-].
  - case_match; [|done]. intros [= <-].
    by destruct (pair_inv (handle_timeout_control ok
         (set_expired (filter (λ u, u ≠ t) (expired s)) s))) as [-> _].
  - destruct (phase s); try done; by intros [= <-].
  - destruct (phase s); try done. unfold send_packets_cut.
    destruct (send_some j env _ s) as [s1|] eqn:Ej; [|done].
    destruct (pair_inv (send_some_control _ _ _ _ _ Ej)) as [Er _].
    destruct c as [|c|c].
    + intros [= <-]. simpl. congruence.
    + destruct (window_open _ s1); [|done]. intros [= <-]. simpl.
      destruct (pair_inv (send_packet_cut_control c env (next_seq s1) s1))
        as [-> _]. congruence.
    + destruct (_ && _ && _); [|done]. intros [= <-]. simpl.
      destruct (pair_inv (start_timer_cut_control c s1)) as [-> _].
      congruence.
Qed.



(** ** The contents of the store *)

Section Store.

Variable n : Z.
Hypothesis n_packable : n <= 2 ^ 32.

Lemma Inv_frame s s' :
  frame s' = frame s → (interrupted s = true → interrupted s' = true) →
  Inv n s → Inv n s'.
Proof.
  intros (_ & Ht & Hb & Hn & Hd)%tuple5_inv Hi [].
  constructor; rewrite ?Ht, ?Hb, ?Hn, ?Hd; auto.
  intros k b Hk. destruct (inv_data0 k b Hk) as (? & ? & Hlt).
  split_and!; [done | done |]. intros Hni. apply Hlt.
  destruct (interrupted s); [|done]. by rewrite Hi in Hni.
Qed.

Lemma Inv_started ws rate : Inv n (started ws rate n).
Proof.
  constructor; simpl; try lia; done.
Qed.

Lemma window_open_packable s :
  Inv n s → window_open (total_packets (stats s)) s = true →
  next_seq s < n ∧ packable (next_seq s) = true.
Proof.
  intros [] Hopen. unfold window_open in Hopen. rewrite inv_total0 in Hopen.
  apply andb_prop in Hopen as [[_ H2]%andb_prop _]. apply Z.ltb_lt in H2.
  split; [done|]. unfold packable. apply andb_true_intro.
  split; [apply Z.leb_le | apply Z.ltb_lt]; lia.
Qed.

Lemma Inv_send_next env s :
  Inv n s → interrupted s = false →
  window_open (total_packets (stats s)) s = true →
  Inv n (send_next env s).
Proof.
  intros HI Hni Hopen.
  destruct (window_open_packable s HI Hopen) as [H2 Hp]. destruct HI.
  destruct (tuple5_inv (send_next_frame env s)) as (_ & Et & Eb & En & Ed).
  rewrite Hp in Ed.
  constructor; rewrite ?Et, ?Eb, ?En, ?Ed; try lia; auto.
  - intros k b. rewrite lookup_insert. case_decide as Hk.
    + intros [= <-]. subst k. split_and!; [done | lia | lia].
    + intros Hkb. destruct (inv_data0 k b Hkb) as (? & ? & Hlt).
      specialize (Hlt Hni). split_and!; [done | lia | lia].
  - intros k Hk. rewrite lookup_insert. case_decide as Hk'.
    + by subst k.
    + apply inv_cover0. lia.
Qed.

(** A call of [send_packet] cut short leaves at most the entry for
    [next_seq] in the store. *)
Lemma Inv_cut c env s :
  Inv n s → interrupted s = false →
  window_open (total_packets (stats s)) s = true →
  Inv n (set_phase Raised (send_packet_cut c env (next_seq s) s)).
Proof.
  intros HI Hni Hopen.
  destruct (window_open_packable s HI Hopen) as [H2 Hp]. destruct HI.
  pose proof (send_packet_cut_frame c env (next_seq s) s) as Hf.
  rewrite Hp in Hf. apply tuple5_inv in Hf as (_ & Et & Eb & En & Ed).
  constructor; simpl; rewrite ?Et, ?Eb, ?En, ?Ed; try lia; auto.
  - intros k b. rewrite lookup_insert. case_decide as Hk.
    + intros [= <-]. subst k. split_and!; [done | lia | done].
    + intros Hkb. destruct (inv_data0 k b Hkb) as (? & ? & Hlt).
      specialize (Hlt Hni). split_and!; [done | lia | done].
  - intros k Hk. rewrite lookup_insert_ne by lia. by apply inv_cover0.
Qed.

Lemma Inv_handle_ack ack_num s : Inv n s → Inv n (handle_ack ack_num s).
Proof.
  intros H. pose proof (handle_ack_frame ack_num s) as Hf.
  destruct (pair_inv (handle_ack_control ack_num s)) as [_ Ep].
  pose proof (interrupted_phase _ _ Ep) as Ei.
  destruct (Z.leb_spec (base s) ack_num) as [Hle|Hlt];
    [|eapply Inv_frame; [exact Hf | congruence | done]].
  apply tuple5_inv in Hf as (_ & Et & Eb & En & Ed). destruct H.
  constructor; rewrite ?Et, ?Eb, ?En, ?Ed, ?Ei; try lia; auto.
  - intros k b. rewrite purge_lookup. case_decide; [done | auto].
  - intros k Hk. rewrite purge_lookup, decide_False by lia.
    apply inv_cover0. lia.
Qed.

Lemma Inv_step allowed e s s' :
  Inv n s → allowed s e = true → step e s = Some s' → Inv n s'.
Proof.
  apply (frame_step (Inv n) allowed).
  - apply Inv_frame.
  - intros env s0. apply Inv_send_next.
  - intros data ack_num s0 H _ _. by apply Inv_handle_ack.
  - intros c env s0. apply Inv_cut.
Qed.

Lemma Inv_run allowed ws rate evs s :
  run_if allowed evs (started ws rate n) = Some s → Inv n s.
Proof.
  apply (run_if_invariant (Inv n)); [apply Inv_step | apply Inv_started].
Qed.

End Store.

(** ** The window *)

Lemma upper_bound_step ws e s s' :
  upper_bound ws s → step e s = Some s' → upper_bound ws s'.
Proof.
  intros H. apply (frame_step_plain (upper_bound ws) (λ _ _, true)); try done.
  - intros s1 s2 (Ew & _ & Eb & En & _)%tuple5_inv.
    unfold upper_bound. by rewrite Ew, Eb, En.
  - intros env s0 [Hw Hu] Hopen. unfold window_open in Hopen.
    apply andb_prop in Hopen as [[H1 _]%andb_prop _]. apply Z.ltb_lt in H1.
    destruct (tuple5_inv (send_next_frame env s0)) as (Ew & _ & Eb & En & _).
    unfold upper_bound. rewrite Ew, Eb, En. lia.
  - intros _ ack_num s0 [Hw Hu] _ _.
    pose proof (handle_ack_frame ack_num s0) as Hf.
    destruct (Z.leb_spec (base s0) ack_num);
      apply tuple5_inv in Hf as (Ew & _ & Eb & En & _);
      unfold upper_bound; rewrite Ew, Eb, En; [lia | done].
  - intros s1 s2 Hu (Ew & _ & Eb & En & _)%tuple5_inv.
    unfold upper_bound. by rewrite Ew, Eb, En.
Qed.

Lemma lower_bound_step e s s' :
  lower_bound s → ack_in_flight s e = true → step e s = Some s' →
  lower_bound s'.
Proof.
  apply (frame_step_plain lower_bound ack_in_flight).
  - intros s1 s2 (_ & _ & Eb & En & _)%tuple5_inv.
    unfold lower_bound. by rewrite Eb, En.
  - intros env s0 H _.
    destruct (tuple5_inv (send_next_frame env s0)) as (_ & _ & Eb & En & _).
    unfold lower_bound in *. rewrite Eb, En. lia.
  - intros data ack_num s0 H Hin E. simpl in Hin. rewrite E in Hin.
    apply Z.ltb_lt in Hin.
    pose proof (handle_ack_frame ack_num s0) as Hf.
    destruct (Z.leb_spec (base s0) ack_num);
      apply tuple5_inv in Hf as (_ & _ & Eb & En & _);
      unfold lower_bound in *; rewrite Eb, En; lia.
  - intros s1 s2 Hl (_ & _ & Eb & En & _)%tuple5_inv.
    unfold lower_bound. by rewrite Eb, En.
Qed.

(** C1 (as amended).  With a non-negative window size, every reachable
    state has [next_seq <= base + window_size], that is
    [next_seq - base <= window_size]: send steps, acknowledgments of any
    value, timeouts and the end of the session all keep it.  In every state
    reached by a run in which each processed acknowledgment is below
    [next_seq], moreover [base <= next_seq]. *)
Theorem window_bound (ws : Z) (rate : Q) (n : Z) (evs : list Event)
    (s : Session) :
  0 <= ws →
  (run evs (started ws rate n) = Some s →
     window_size s = ws ∧ next_seq s - base s <= ws) ∧
  (run_if ack_in_flight evs (started ws rate n) = Some s →
     base s <= next_seq s <= base s + ws).
Proof.
  intros Hws.
  assert (Hup : run evs (started ws rate n) = Some s → upper_bound ws s).
  { apply (run_if_invariant (upper_bound ws)).
    - intros e s1 s2 H _. by apply upper_bound_step.
    - split; simpl; [done | lia]. }
  split.
  - intros [Hw Hu]%Hup. split; [done | lia].
  - intros Hrun. destruct (Hup (run_if_run _ _ _ _ Hrun)) as [_ Hu].
    split; [|done]. revert Hrun.
    apply (run_if_invariant lower_bound); [apply lower_bound_step|].
    unfold lower_bound. simpl. lia.
Qed.

Lemma window_bound_witness :
  let s := after (produce lossless ++ acked 1 ++ produce lossless)
                 (started 4 (1 # 10) 15) in
  base s = 2 ∧ next_seq s = 6 ∧ base s <= next_seq s <= base s + 4.
Proof.
  intros s. split; [vm_compute; reflexivity|].
  split; [vm_compute; reflexivity|].
  apply (window_bound 4 (1 # 10) 15
           (produce lossless ++ acked 1 ++ produce lossless) s); [lia|].
  vm_compute. reflexivity.
Defined.

(** C1 as stated fails: an acknowledgment for a sequence number not yet
    sent moves [base] past [next_seq]. *)
Lemma window_bound_counterexample :
  let s := after (produce lossless ++ acked 7) (started 4 (1 # 10) 15) in
  run (produce lossless ++ acked 7) (started 4 (1 # 10) 15) = Some s ∧
  base s = 8 ∧ next_seq s = 4 ∧ ¬ (base s <= next_seq s <= base s + 4).
Proof.
  intros s.
  assert (E : base s = 8 ∧ next_seq s = 4) by (split; vm_compute; reflexivity).
  split; [vm_compute; reflexivity|].
  destruct E as [-> ->]. split_and!; [done | done | lia].
Qed.

(** ** The retransmission store *)

Lemma no_stale_step e s s' :
  no_stale s → ack_in_flight s e = true → step e s = Some s' → no_stale s'.
Proof.
  apply (frame_step_plain no_stale ack_in_flight); cycle 3.
  - intros s1 s2 [Hb Hk] (_ & _ & Eb & En & Ed)%tuple5_inv.
    unfold no_stale. rewrite Eb, En, Ed. split; [done|].
    intros k. rewrite lookup_insert. case_decide; [lia | auto].
  - intros s1 s2 (_ & _ & Eb & En & Ed)%tuple5_inv.
    unfold no_stale. by rewrite Eb, En, Ed.
  - intros env s0 [Hb Hk] _.
    destruct (tuple5_inv (send_next_frame env s0)) as (_ & _ & Eb & En & Ed).
    unfold no_stale. rewrite Eb, En, Ed. split; [lia|].
    intros k. case_match; [|by auto].
    rewrite lookup_insert. case_decide; [lia | auto].
  - intros data ack_num s0 [Hb Hk] Hin E. simpl in Hin. rewrite E in Hin.
    apply Z.ltb_lt in Hin.
    pose proof (handle_ack_frame ack_num s0) as Hf.
    destruct (Z.leb_spec (base s0) ack_num);
      apply tuple5_inv in Hf as (_ & _ & Eb & En & Ed);
      unfold no_stale; rewrite Eb, En, Ed; [|done].
    split; [lia|]. intros k. rewrite purge_lookup.
    case_decide; [by intros [? ?] | lia].
Qed.

(** C2 (as amended).  In a session of at most [2^32] packets, in every
    state reached by a run in which each processed acknowledgment is below
    [next_seq], the store has an entry for every sequence number of
    [base, ..., next_seq - 1], every entry is the packet built for its key
    when it was first sent, and until a [KeyboardInterrupt] is raised the
    keys of [packet_data] are exactly [base, ..., next_seq - 1].  After a
    [KeyboardInterrupt], which may have cut [send_packet] short between
    [packet_data[seq_num] = packet] and [next_seq += 1], the only other
    key there can be is [next_seq]. *)
Theorem store_keys (ws : Z) (rate : Q) (n : Z) (evs : list Event)
    (s : Session) :
  n <= 2 ^ 32 →
  run_if ack_in_flight evs (started ws rate n) = Some s →
  (interrupted s = false →
     dom (packet_data s) = list_to_set (range (base s) (next_seq s))) ∧
  dom (packet_data s) ⊆@{gset Z} list_to_set (range (base s) (next_seq s + 1)) ∧
  (∀ k, base s <= k < next_seq s →
        packet_data s !! k = Some (make_packet k)) ∧
  (∀ k b, packet_data s !! k = Some b → b = make_packet k).
Proof.
  intros Hn Hrun.
  pose proof (Inv_run n Hn _ _ _ _ _ Hrun) as HI.
  assert (HS : no_stale s).
  { revert Hrun. apply (run_if_invariant no_stale); [apply no_stale_step|].
    split; simpl; [lia|]. intros k. rewrite lookup_empty. by intros [? ?]. }
  split_and!; [| |apply HI|].
  - intros Hni. apply set_eq. intros k.
    rewrite elem_of_dom, elem_of_list_to_set.
    unfold range. rewrite elem_of_seqZ. split.
    + intros Hk. pose proof (proj2 HS k Hk) as Hb. destruct Hk as [b Hk].
      destruct (inv_data n s HI k b Hk) as (_ & _ & Hlt).
      specialize (Hlt Hni). lia.
    + intros Hk. rewrite (inv_cover n s HI k) by lia. eauto.
  - intros k. rewrite elem_of_dom, elem_of_list_to_set.
    unfold range. rewrite elem_of_seqZ.
    intros Hk. pose proof (proj2 HS k Hk) as Hb. destruct Hk as [b Hk].
    destruct (inv_data n s HI k b Hk) as (_ & Hle & _). lia.
  - intros k b Hk. by destruct (inv_data n s HI k b Hk) as (? & _).
Qed.

Lemma store_keys_witness :
  let s := after (produce lossless ++ acked 1 ++ produce lossless)
                 (started 4 (1 # 10) 15) in
  base s = 2 ∧ next_seq s = 6 ∧
  dom (packet_data s) = list_to_set (range (base s) (next_seq s)).
Proof.
  intros s. split; [vm_compute; reflexivity|].
  split; [vm_compute; reflexivity|].
  apply (store_keys 4 (1 # 10) 15
           (produce lossless ++ acked 1 ++ produce lossless) s);
    [lia | vm_compute; reflexivity | vm_compute; reflexivity].
Defined.

(** C2 as stated fails, in two ways.  After an acknowledgment for a
    sequence number not yet sent, the producer goes on from [next_seq],
    below the new [base], and stores packets outside
    [base, ..., next_seq - 1].  And a [KeyboardInterrupt] raised in
    [send_packet] after the packet has been stored leaves an entry for
    [next_seq]: here the third packet of the first window is cut short. *)
Lemma store_keys_counterexample :
  let s0 := started 4 (1 # 10) 15 in
  let evs1 := produce lossless ++ acked 7 ++ produce lossless in
  let evs2 := [Main lossless false;
               InterruptLocked lossless 2 (InSendPacket AfterStore)] in
  (run evs1 s0 = Some (after evs1 s0) ∧
   base (after evs1 s0) = 8 ∧ next_seq (after evs1 s0) = 12 ∧
   packet_data (after evs1 s0) !! 4 = Some (make_packet 4) ∧
   dom (packet_data (after evs1 s0))
   ≠ list_to_set (range (base (after evs1 s0)) (next_seq (after evs1 s0)))) ∧
  (run_if ack_in_flight evs2 s0 = Some (after evs2 s0) ∧
   base (after evs2 s0) = 0 ∧ next_seq (after evs2 s0) = 2 ∧
   packet_data (after evs2 s0) !! 2 = Some (make_packet 2) ∧
   dom (packet_data (after evs2 s0))
   ≠ list_to_set (range (base (after evs2 s0)) (next_seq (after evs2 s0)))).
Proof.
  intros s0 evs1 evs2.
  assert (Hkey : ∀ (s : Session) (k b n : Z),
            base s = b → next_seq s = n → ¬ b <= k < n →
            packet_data s !! k = Some (make_packet k) →
            dom (packet_data s) ≠ list_to_set (range (base s) (next_seq s))).
  { intros s k b n Hb Hn Hout Hk H.
    assert (Hin : k ∈ dom (packet_data s)).
    { apply elem_of_dom. by rewrite Hk. }
    rewrite H in Hin. apply elem_of_list_to_set in Hin.
    unfold range in Hin. apply elem_of_seqZ in Hin. lia. }
  split.
  - assert (Hb : base (after evs1 s0) = 8) by (vm_compute; reflexivity).
    assert (Hn : next_seq (after evs1 s0) = 12) by (vm_compute; reflexivity).
    assert (H4 : packet_data (after evs1 s0) !! 4 = Some (make_packet 4))
      by (vm_compute; reflexivity).
    split_and!; [vm_compute; reflexivity | done | done | done |].
    apply (Hkey _ 4 8 12); [done | done | lia | done].
  - assert (Hb : base (after evs2 s0) = 0) by (vm_compute; reflexivity).
    assert (Hn : next_seq (after evs2 s0) = 2) by (vm_compute; reflexivity).
    assert (H2 : packet_data (after evs2 s0) !! 2 = Some (make_packet 2))
      by (vm_compute; reflexivity).
    split_and!; [vm_compute; reflexivity | done | done | done |].
    apply (Hkey _ 2 0 2); [done | done | lia | done].
Qed.

(** ** Acknowledgment processing *)


(** A stale acknowledgment only counts as received. *)
Lemma handle_ack_stale ack_num s :
  ack_num < base s →
  handle_ack ack_num s = bump acks_received set_acks_received s.
Proof.
  intros H. unfold handle_ack. simpl.
  destruct (Z.leb_spec (base s) ack_num); [lia | done].
Qed.

Lemma handle_ack_sent ack_num s :
  base s <= ack_num →
  sent_packets (handle_ack ack_num s) = purge ack_num (sent_packets s).
Proof.
  intros H. unfold handle_ack. simpl.
  destruct (Z.leb_spec (base s) ack_num); [|lia]. by_cases.
Qed.



(** ** Timeout handling *)

Lemma omap_lookup_covered (d : gmap Z (list byte)) (l : list Z) :
  (∀ k, k ∈ l → d !! k = Some (make_packet k)) →
  omap (λ k, d !! k) l = map make_packet l.
Proof.
  induction l as [|q l IH]; intros H; csimpl; [done|].
  rewrite (H q) by left. rewrite IH; [done|].
  intros k Hk. apply H. by right.
Qed.

(** C4 (as amended).  In a session of at most [2^32] packets, every
    timeout handled while the session is running calls [sendto] once for
    each sequence number of [base, ..., next_seq - 1], in increasing order,
    with the bytes stored for it, which are those built at its first
    transmission; it then arms a new timer; [base], [next_seq] and the store
    are unchanged. *)
Theorem timeout_retransmits (ws : Z) (rate : Q) (n : Z) (evs : list Event)
    (s s' : Session) (t : nat) (ok : Z → bool) :
  n <= 2 ^ 32 →
  run evs (started ws rate n) = Some s →
  running s = true →
  step (Timeout t ok) s = Some s' →
  sendto_calls s'
    = sendto_calls s ++ map make_packet (range (base s) (next_seq s)) ∧
  (∀ k, k ∈ range (base s) (next_seq s) →
        packet_data s !! k = Some (make_packet k)) ∧
  base s' = base s ∧ next_seq s' = next_seq s ∧
  packet_data s' = packet_data s ∧
  timer_active s' = true ∧ timer_thread s' = Some (spawned s) ∧
  armed s' = armed s ++ [spawned s].
Proof.
  intros Hn Hreach Hrun. simpl. case_match; [|done]. intros [= <-].
  pose proof (Inv_run n Hn _ _ _ _ _ Hreach) as HI.
  assert (Hcov : ∀ k, k ∈ range (base s) (next_seq s) →
                      packet_data s !! k = Some (make_packet k)).
  { intros k Hk. unfold range in Hk. apply elem_of_seqZ in Hk.
    apply (inv_cover n s HI). lia. }
  set (s1 := set_expired _ s).
  destruct (handle_timeout_running ok s1 Hrun) as (Hc & Ha & Ht & Hr & _).
  destruct (tuple5_inv (handle_timeout_frame ok s1)) as (_ & _ & Eb & En & Ed).
  split_and!; try done.
  rewrite Hc. simpl. by rewrite omap_lookup_covered.
Qed.

Lemma timeout_retransmits_witness :
  let evs := produce lossless ++ acked 1 ++ [Expire 1] in
  let s := after evs (started 4 (1 # 10) 15) in
  let s' := after (evs ++ [Timeout 1 (λ _, true)]) (started 4 (1 # 10) 15) in
  base s = 2 ∧ next_seq s = 4 ∧
  sendto_calls s' = sendto_calls s ++ [make_packet 2; make_packet 3] ∧
  timer_active s' = true.
Proof.
  intros evs s s'. split; [vm_compute; reflexivity|].
  split; [vm_compute; reflexivity|].
  destruct (timeout_retransmits 4 (1 # 10) 15 evs s s' 1 (λ _, true))
    as (Hc & _ & _ & _ & _ & Ha & _);
    [lia | vm_compute; reflexivity | vm_compute; reflexivity
    | vm_compute; reflexivity |].
  split; [|exact Ha]. rewrite Hc. f_equal.
Defined.

(** C4 as stated fails: [handle_timeout] returns at once when [running] is
    false.  Here the timer expires, a [KeyboardInterrupt] is raised and the
    [finally] clause of [start] stops the client, and then the expired
    timer's thread gets the lock: packets 0..3 are in flight, nothing is
    sent, no timer is armed. *)
Lemma timeout_retransmits_counterexample :
  let evs := produce lossless
             ++ [Expire 0; Interrupt; Main lossless false] in
  let s := after evs (started 4 (1 # 10) 15) in
  let s' := after (evs ++ [Timeout 0 (λ _, true)]) (started 4 (1 # 10) 15) in
  run evs (started 4 (1 # 10) 15) = Some s ∧
  step (Timeout 0 (λ _, true)) s = Some s' ∧
  running s = false ∧ base s = 0 ∧ next_seq s = 4 ∧
  sendto_calls s' = sendto_calls s ∧
  timer_active s' = false ∧ armed s' = [].
Proof.
  intros evs s s'. split_and!; vm_compute; reflexivity.
Qed.

(** ** The timer flag and the timers *)

(** C5 fails on the code.  [Timer.cancel] does not stop a timer whose
    thread has already called [handle_timeout] and waits for [self.lock];
    and [handle_timeout], unlike [send_packets] and [handle_ack], starts a
    timer without testing [base < next_seq].
    - First run: timer 0 expires while the acknowledgment for packet 3 is
      being processed.  The acknowledgment empties the window and cancels
      timer 0 too late; its handler then sets [timer_active] although
      [base = next_seq].
    - Second run: the same with the acknowledgment for packet 1.
      [handle_ack] arms timer 1, the handler of timer 0 arms timer 2, and
      both are armed at once. *)
Theorem timer_race :
  let s0 := started 4 (1 # 10) 15 in
  let ok := λ _ : Z, true in
  let evs1 := produce lossless ++ [Expire 0] ++ acked 3 ++ [Timeout 0 ok] in
  let evs2 := produce lossless ++ [Expire 0] ++ acked 1 ++ [Timeout 0 ok] in
  (run evs1 s0 = Some (after evs1 s0) ∧
   running (after evs1 s0) = true ∧
   timer_active (after evs1 s0) = true ∧
   base (after evs1 s0) = 4 ∧ next_seq (after evs1 s0) = 4 ∧
   armed (after evs1 s0) = [1%nat]) ∧
  (run evs2 s0 = Some (after evs2 s0) ∧
   base (after evs2 s0) = 2 ∧ next_seq (after evs2 s0) = 4 ∧
   armed (after evs2 s0) = [1%nat; 2%nat]).
Proof.
  intros s0 ok evs1 evs2. split_and!; vm_compute; reflexivity.
Qed.

(** Without that race the property holds while the session runs and no
    [KeyboardInterrupt] has been raised.  The lemmas below follow the timer
    through the steps of a run in which every expired timer is handled at
    once. *)

Lemma filter_other_self (t : nat) : filter (λ u, u ≠ t) [t] = [].
Proof. rewrite filter_cons, decide_False by auto. done. Qed.

Lemma one_timer_same s s' :
  timers s' = timers s → running s' = running s →
  base s' = base s → next_seq s' = next_seq s →
  one_timer s → one_timer s'.
Proof.
  intros (Ea & Et & Ear & Eex & _)%tuple5_inv Er Eb En H.
  destruct H as [H1 H2 H3 H4|t H1 H2 H3 H4 H5].
  - apply timer_idle; rewrite ?Ea, ?Ear, ?Eex, ?Er, ?Eb, ?En; done.
  - apply (timer_due _ t); unfold pending in *;
      rewrite ?Ea, ?Et, ?Ear, ?Eex, ?Er, ?Eb, ?En; done.
Qed.

(** Stopping the timer when none has expired leaves nothing pending. *)
Lemma stop_timer_idle s :
  one_timer s → expired s = [] →
  timer_active (stop_timer s) = false ∧ armed (stop_timer s) = [] ∧
  expired (stop_timer s) = [].
Proof.
  intros H Hex. unfold stop_timer.
  destruct H as [H1 H2 H3 H4|t H1 H2 H3 H4 H5].
  - by rewrite H1.
  - rewrite H1, H2. simpl. unfold pending in H3.
    rewrite Hex, app_nil_r in H3. rewrite H3, filter_other_self. done.
Qed.

(** Starting the timer when nothing is pending leaves one timer pending. *)
Lemma start_timer_due s :
  timer_active s = false → armed s = [] → expired s = [] →
  timer_active (start_timer s) = true ∧
  timer_thread (start_timer s) = Some (spawned s) ∧
  pending (start_timer s) = [spawned s].
Proof.
  intros Ha Har Hex. unfold start_timer, pending. rewrite Ha. simpl.
  by rewrite Har, Hex.
Qed.

Lemma one_timer_handle_ack ack_num s :
  one_timer s → expired s = [] → running s = true →
  one_timer (handle_ack ack_num s).
Proof.
  intros H Hex Hrun.
  pose proof (handle_ack_frame ack_num s) as Hf.
  pose proof (handle_ack_timers ack_num s) as Ht.
  destruct (pair_inv (handle_ack_control ack_num s)) as [Er _].
  destruct (stop_timer_idle s H Hex) as (Ha & Har & Hex').
  destruct (Z.leb_spec (base s) ack_num) as [Hle|Hgt].
  - apply tuple5_inv in Hf as (_ & _ & Eb & En & _).
    destruct (Z.ltb_spec (ack_num + 1) (next_seq s)) as [Hlt|Hge];
      apply tuple5_inv in Ht as (Ea & Eth & Ear & Eex & _).
    + destruct (start_timer_due (stop_timer s) Ha Har Hex') as (Sa & St & Sp).
      apply (timer_due _ (spawned (stop_timer s)));
        unfold pending in *; unfold restart_timer in *;
        first [congruence | rewrite Eb, En; lia].
    + apply timer_idle; first [congruence | rewrite Eb, En; lia].
  - apply tuple5_inv in Hf as (_ & _ & Eb & En & _).
    by apply (one_timer_same s).
Qed.

(** The producer's loop only moves [next_seq], and only upwards. *)
Lemma send_window_next env n fuel s :
  let s' := send_window fuel env n s in
  timers s' = timers s ∧ running s' = running s ∧ base s' = base s ∧
  next_seq s <= next_seq s'.
Proof.
  apply (send_window_invariant
           (λ s', timers s' = timers s ∧ running s' = running s ∧
                  base s' = base s ∧ next_seq s <= next_seq s') env n);
    [|by split_and!].
  intros s0 (Ht & Hr & Hb & Hn) _.
  destruct (tuple5_inv (send_next_frame env s0)) as (_ & _ & Eb & En & _).
  destruct (pair_inv (send_next_control env s0)) as [Er _].
  rewrite send_next_timers, Er, Eb, En. split_and!; try done. lia.
Qed.

Lemma one_timer_send env n s :
  one_timer s → running s = true →
  one_timer (send_packets_locked env n s).
Proof.
  intros H Hrun. unfold send_packets_locked.
  set (s1 := send_window _ env n s).
  destruct (send_window_next env n (Z.to_nat (n - next_seq s)) s)
    as (Ht & Er & Eb & En). fold s1 in Ht, Er, Eb, En.
  apply tuple5_inv in Ht as (Ea & Eth & Ear & Eex & _).
  destruct H as [H1 H2 H3 H4|t H1 H2 H3 H4 H5].
  - rewrite Ea, H1. simpl.
    destruct (Z.ltb_spec (base s1) (next_seq s1)) as [Hlt|Hge].
    + destruct (start_timer_due s1) as (Sa & St & Sp); try congruence.
      destruct (pair_inv (start_timer_control s1)) as [Sr _].
      destruct (tuple5_inv (start_timer_frame s1)) as (_ & _ & Sb & Sn & _).
      apply (timer_due _ (spawned s1)); try done; [congruence|].
      by rewrite Sb, Sn.
    + apply timer_idle; first [congruence | intros _; lia].
  - rewrite Ea, H1. simpl.
    apply (timer_due _ t); unfold pending in *;
      first [congruence | lia].
Qed.

Lemma one_timer_expire t s :
  t ∈ armed s → one_timer s →
  one_timer (set_expired (expired s ++ [t])
               (set_armed (filter (λ u, u ≠ t) (armed s)) s)).
Proof.
  intros Hin H. destruct H as [H1 H2 H3 H4|u H1 H2 H3 H4 H5].
  - rewrite H2 in Hin. inversion Hin.
  - unfold pending in H3.
    apply app_singleton in H3 as [[Har Hex]|[Har Hex]];
      rewrite Har in Hin; [inversion Hin|].
    apply list_elem_of_singleton in Hin as ->.
    apply (timer_due _ u); try done.
    unfold pending. simpl. by rewrite Har, Hex, filter_other_self.
Qed.

Lemma one_timer_timeout t ok s :
  t ∈ expired s → one_timer s →
  one_timer (handle_timeout ok
               (set_expired (filter (λ u, u ≠ t) (expired s)) s)).
Proof.
  intros Hin H. destruct H as [H1 H2 H3 H4|u H1 H2 H3 H4 H5].
  - rewrite H3 in Hin. inversion Hin.
  - unfold pending in H3.
    apply app_singleton in H3 as [[Har Hex]|[Har Hex]];
      rewrite Hex in Hin; [|inversion Hin].
    apply list_elem_of_singleton in Hin as ->.
    set (s1 := set_expired _ s).
    destruct (handle_timeout_running ok s1 H4) as (_ & Sa & St & Sar & Sex).
    destruct (tuple5_inv (handle_timeout_frame ok s1))
      as (_ & _ & Eb & En & _).
    destruct (pair_inv (handle_timeout_control ok s1)) as [Er _].
    apply (timer_due _ (spawned s)); try done.
    + unfold pending. rewrite Sar, Sex. simpl.
      by rewrite Har, Hex, filter_other_self.
    + by rewrite Er.
    + by rewrite Eb, En.
Qed.

Lemma one_timer_step e s s' :
  one_timer s → prompt s e = true →
  running s' = true → interrupted s' = false →
  step e s = Some s' → one_timer s'.
Proof.
  intros H Hp Hr' Hni' Hs.
  pose proof (running_step e s s' Hs Hr') as Hr.
  assert (Hex : match e with
                | Expire _ | Timeout _ _ => True
                | _ => expired s = []
                end).
  { destruct e; simpl in Hp; try done; by destruct (expired s). }
  revert Hs. destruct e as [env deadline| |r|t|t ok| |env j c]; simpl.
  - unfold main_step.
    destruct (phase s) eqn:Eph.
    + case_match; intros [= <-]; by apply (one_timer_same s).
    + intros [= <-].
      apply (one_timer_same
               (send_packets_locked env (total_packets (stats s)) s));
        try done.
      by apply one_timer_send.
    + repeat case_match; intros [= <-]; try done;
        by apply (one_timer_same s).
    + intros [= <-]. by rewrite finish_running in Hr'.
    + intros [= <-]. by unfold interrupted in Hni'.
    + intros [= <-]. by unfold interrupted in Hni'.
    + done.
  - destruct (listener s); [|done..]. intros [= <-]. by apply (one_timer_same s).
  - destruct (listener s); [done| |done]. intros [= <-].
    apply (one_timer_same (receive_acks_iter r s)); try done.
    unfold receive_acks_iter, receive_acks_try.
    repeat case_match; simplify_eq; try done.
    by apply one_timer_handle_ack.
  - unfold memb. case_bool_decide; [|done]. intros [= <-].
    by apply one_timer_expire.
  - unfold memb. case_bool_decide; [|done]. intros [= <-].
    by apply one_timer_timeout.
  - destruct (phase s); try done; intros [= <-]; by unfold interrupted in Hni'.
  - destruct (phase s); try done.
    destruct (send_packets_cut _ _ _ _ _); [|done]. intros [= <-].
    by unfold interrupted in Hni'.
Qed.

(** At most one timer is pending, whatever has happened to the session. *)

Lemma lone_timer_timers s s' : timers s' = timers s → lone_timer s → lone_timer s'.
Proof.
  intros (Ea & Et & Ear & Eex & _)%tuple5_inv.
  unfold lone_timer, pending. by rewrite Ea, Et, Ear, Eex.
Qed.

Lemma lone_timer_stop_timer s :
  lone_timer s → expired s = [] →
  lone_timer (stop_timer s) ∧ expired (stop_timer s) = [].
Proof.
  intros H Hex. unfold stop_timer.
  destruct (timer_active s) eqn:Ea; [|done].
  destruct (timer_thread s) as [t|] eqn:Et; [|done].
  split; [|done]. left. unfold pending, cancel. simpl. rewrite Hex, app_nil_r.
  destruct H as [H|(_ & u & Hu & H)]; unfold pending in H;
    rewrite Hex, app_nil_r in H; rewrite H; [done|].
  assert (u = t) as -> by congruence. apply filter_other_self.
Qed.

Lemma lone_timer_start_timer s : lone_timer s → lone_timer (start_timer s).
Proof.
  intros H. unfold start_timer. destruct (timer_active s) eqn:Ea; [done|].
  destruct H as [H|(Ha & _)]; [|congruence].
  unfold pending in H. apply app_eq_nil in H as [Har Hex].
  right. split; [done|]. exists (spawned s). split; [done|].
  unfold pending. simpl. by rewrite Har, Hex.
Qed.

Lemma lone_timer_handle_ack ack_num s :
  lone_timer s → expired s = [] → lone_timer (handle_ack ack_num s).
Proof.
  intros H Hex. pose proof (handle_ack_timers ack_num s) as Ht.
  destruct (lone_timer_stop_timer s H Hex) as [Hstop _].
  destruct (base s <=? ack_num); [|by apply (lone_timer_timers s)].
  destruct (ack_num + 1 <? next_seq s).
  - apply (lone_timer_timers (restart_timer s)); [done|].
    by apply lone_timer_start_timer.
  - by apply (lone_timer_timers (stop_timer s)).
Qed.

Lemma lone_timer_stop s : lone_timer s → expired s = [] → lone_timer (stop s).
Proof.
  intros H Hex.
  apply (lone_timer_stop_timer (set_running false s)); [|done].
  by apply (lone_timer_timers s).
Qed.

Lemma lone_timer_send env n s :
  lone_timer s → lone_timer (send_packets_locked env n s).
Proof.
  intros H. unfold send_packets_locked.
  set (s1 := send_window _ env n s).
  assert (H1 : lone_timer s1).
  { apply (lone_timer_timers s); [|done].
    apply send_window_preserves, send_next_timers. }
  case_match; [by apply lone_timer_start_timer | done].
Qed.

Lemma lone_timer_cut env n j c s s' :
  lone_timer s → send_packets_cut env n j c s = Some s' → lone_timer s'.
Proof.
  intros H. unfold send_packets_cut.
  destruct (send_some j env n s) as [s1|] eqn:Ej; [|done].
  assert (H1 : lone_timer s1).
  { apply (lone_timer_timers s); [|done]. revert Ej.
    apply (send_some_invariant (λ s1, timers s1 = timers s)); [|done].
    intros s0 E _. by rewrite send_next_timers. }
  destruct c as [|c|c].
  - by intros [= <-].
  - destruct (window_open n s1); [|done]. intros [= <-].
    apply (lone_timer_timers s1); [apply send_packet_cut_timers | done].
  - destruct (negb (window_open n s1)); [|done].
    destruct (timer_active s1) eqn:Ea; [done|].
    destruct (base s1 <? next_seq s1); [|done]. simpl. intros [= <-].
    destruct H1 as [H1|(Ha & _)]; [|congruence].
    left. by destruct c.
Qed.

Lemma lone_timer_expire t s :
  t ∈ armed s → lone_timer s →
  lone_timer (set_expired (expired s ++ [t])
                (set_armed (filter (λ u, u ≠ t) (armed s)) s)).
Proof.
  intros Hin [H|(Ha & u & Hu & H)]; unfold pending in H.
  - apply app_eq_nil in H as [Har _]. rewrite Har in Hin. inversion Hin.
  - apply app_singleton in H as [[Har Hex]|[Har Hex]];
      rewrite Har in Hin; [inversion Hin|].
    apply list_elem_of_singleton in Hin as ->.
    right. split; [done|]. exists u. split; [done|].
    unfold pending. simpl. by rewrite Har, Hex, filter_other_self.
Qed.

Lemma lone_timer_timeout t ok s :
  t ∈ expired s → lone_timer s →
  lone_timer (handle_timeout ok
                (set_expired (filter (λ u, u ≠ t) (expired s)) s)).
Proof.
  intros Hin [H|(Ha & u & Hu & H)]; unfold pending in H.
  - apply app_eq_nil in H as [_ Hex]. rewrite Hex in Hin. inversion Hin.
  - apply app_singleton in H as [[Har Hex]|[Har Hex]];
      rewrite Hex in Hin; [|inversion Hin].
    apply list_elem_of_singleton in Hin as ->.
    set (s1 := set_expired _ s).
    assert (H1 : pending s1 = []).
    { unfold pending, s1. simpl. by rewrite Har, Hex, filter_other_self. }
    destruct (running s) eqn:Hr.
    + destruct (handle_timeout_running ok s1 Hr) as (_ & Sa & St & Sar & Sex).
      right. split; [done|]. exists (spawned s). split; [done|].
      unfold pending in *. rewrite Sar, Sex.
      apply app_eq_nil in H1 as [-> ->]. done.
    + left. unfold handle_timeout. simpl. by rewrite Hr.
Qed.

Lemma lone_timer_step e s s' :
  lone_timer s → prompt s e = true → step e s = Some s' → lone_timer s'.
Proof.
  intros H Hp.
  assert (Hex : match e with
                | Expire _ | Timeout _ _ => True
                | _ => expired s = []
                end).
  { destruct e; simpl in Hp; try done; by destruct (expired s). }
  destruct e as [env deadline| |r|t|t ok| |env j c]; simpl.
  - unfold main_step, finish.
    destruct (phase s); repeat case_match; intros [= <-]; try done;
      try (apply (lone_timer_timers (stop s)); [done|];
           by apply lone_timer_stop).
    apply (lone_timer_timers
             (send_packets_locked env (total_packets (stats s)) s)); [done|].
    by apply lone_timer_send.
  - destruct (listener s); [|done..]. by intros [= <-].
  - destruct (listener s); [done| |done]. intros [= <-].
    apply (lone_timer_timers (receive_acks_iter r s)); [done|].
    unfold receive_acks_iter, receive_acks_try.
    repeat case_match; simplify_eq; try done.
    by apply lone_timer_handle_ack.
  - unfold memb. case_bool_decide; [|done]. intros [= <-].
    by apply lone_timer_expire.
  - unfold memb. case_bool_decide; [|done]. intros [= <-].
    by apply lone_timer_timeout.
  - destruct (phase s); try done; by intros [= <-].
  - destruct (phase s); try done.
    destruct (send_packets_cut _ _ _ _ _) as [s1|] eqn:Ec; [|done].
    intros [= <-]. apply (lone_timer_timers s1); [done|].
    by apply (lone_timer_cut _ _ _ _ _ _ H Ec).
Qed.

Lemma lone_timer_run ws rate n evs s :
  run_if prompt evs (started ws rate n) = Some s →
  lone_timer s ∧ (running s = true → interrupted s = false → one_timer s).
Proof.
  apply (run_if_invariant
           (λ s, lone_timer s ∧
                 (running s = true → interrupted s = false → one_timer s))).
  - intros e s1 s2 [Hl Ho] Hp Hs. split; [by apply (lone_timer_step e s1)|].
    intros Hr Hni. apply (one_timer_step e s1); try done.
    apply Ho; [by apply (running_step e s1 s2)|].
    destruct (interrupted s1) eqn:E; [|done].
    by rewrite (interrupted_step e s1 s2 Hs E) in Hni.
  - split; [by left|]. intros _ _. by apply timer_idle.
Qed.

(** X12.  In a run without that race, at most one timer is pending at any
    time, and while the session runs and no [KeyboardInterrupt] has been
    raised the flag is set exactly when [base < next_seq]. *)
Theorem timer_single_when_prompt (ws : Z) (rate : Q) (n : Z)
    (evs : list Event) (s : Session) :
  run_if prompt evs (started ws rate n) = Some s →
  (length (pending s) <= 1)%nat ∧
  (running s = true → interrupted s = false →
   (timer_active s = true ↔ base s < next_seq s)).
Proof.
  intros Hrun. destruct (lone_timer_run _ _ _ _ _ Hrun) as [Hl Ho]. split.
  - destruct Hl as [->|(_ & t & _ & ->)]; simpl; lia.
  - intros Hr Hni.
    destruct (Ho Hr Hni) as [H1 H2 H3 H4|t H1 H2 H3 H4 H5].
    + rewrite H1. split; [done|]. specialize (H4 Hr). lia.
    + by rewrite H1.
Qed.

(** The condition on interrupts is needed: a [KeyboardInterrupt] in the
    third call of [send_packet] leaves the critical section before
    [start_timer] is reached, and until [stop] is called the session is
    running with packets in flight and no timer. *)
Example interrupt_skips_timer :
  let evs := [Main lossless false;
              InterruptLocked lossless 2 (InSendPacket AfterStore)] in
  let s := after evs (started 4 (1 # 10) 15) in
  run_if prompt evs (started 4 (1 # 10) 15) = Some s ∧
  running s = true ∧ base s = 0 ∧ next_seq s = 2 ∧
  timer_active s = false ∧ pending s = [].
Proof. intros evs s. split_and!; vm_compute; reflexivity. Qed.

(** ** Termination *)

Lemma stuck_step n e s s' :
  0 < n →
  stuck n s → no_ack s e = true → step e s = Some s' → stuck n s'.
Proof.
  intros Hn (Hp & Hr & Hb & Ht) Hno.
  destruct e as [env deadline| |r|t|t ok| |env j c]; simpl.
  - unfold main_step. destruct Hp as [Hp|Hp]; rewrite Hp.
    + unfold send_packets_guard. rewrite Hr, Hb, Ht.
      destruct (Z.ltb_spec 0 n); [|lia]. simpl. intros [= <-].
      unfold stuck. simpl. auto.
    + intros [= <-].
      destruct (pair_inv (send_packets_locked_control env
                            (total_packets (stats s)) s)) as [Er Ep].
      destruct (send_packets_locked_base env (total_packets (stats s)) s)
        as [Eb Et].
      unfold stuck. simpl. rewrite Er, Eb, Et. auto.
  - destruct (listener s); [|done..]. by intros [= <-].
  - destruct (listener s); [done| |done]. intros [= <-].
    unfold receive_acks_iter, receive_acks_try.
    destruct r as [data| |]; simpl in *; try done.
    destruct (length data =? 4)%nat; [done|]. done.
  - case_match; [|done]. by intros [= <-].
  - case_match; [|done]. intros [= <-].
    set (s1 := set_expired _ s).
    destruct (pair_inv (handle_timeout_control ok s1)) as [Er Ep].
    destruct (tuple5_inv (handle_timeout_frame ok s1))
      as (_ & Et & Eb & _ & _).
    unfold stuck. by rewrite Er, Ep, Eb, Et.
  - done.
  - done.
Qed.

(** C6 fails on the code.  [start] calls [wait_for_completion], which holds
    the 30 s limit, only after [send_packets] has returned, and the loop of
    [send_packets] has no limit of its own: in every run of a session with
    at least one packet in which no acknowledgment arrives, however many
    timeouts it contains, the main thread is still inside [send_packets],
    its loop guard holds, and its next step is the passage to the critical
    section or one more critical section, whatever the clock says.  The
    session never stops and reports nothing. *)
Theorem send_packets_never_returns (ws : Z) (rate : Q) (n : Z)
    (evs : list Event) (s : Session) :
  0 < n →
  run_if no_ack evs (started ws rate n) = Some s →
  (phase s = InSendPackets ∨ phase s = AtLock) ∧
  running s = true ∧ base s = 0 ∧
  send_packets_guard n s = true ∧
  ∀ env deadline,
    step (Main env deadline) s
    = Some (match phase s with
            | InSendPackets => set_phase AtLock s
            | _ => set_phase InSendPackets (send_packets_locked env n s)
            end).
Proof.
  intros Hn Hrun.
  assert (H : stuck n s).
  { revert Hrun. apply (run_if_invariant (stuck n));
      [intros e s1 s2; by apply stuck_step|].
    split_and!; try done. by left. }
  destruct H as (Hp & Hr & Hb & Ht).
  assert (Hg : send_packets_guard n s = true).
  { unfold send_packets_guard. rewrite Hr, Hb.
    apply andb_true_intro. split; [by apply Z.ltb_lt | done]. }
  split_and!; try done.
  intros env deadline. simpl. unfold main_step.
  destruct Hp as [Hp|Hp]; rewrite Hp, Ht, ?Hg; done.
Qed.

(** Server down: three rounds of sending and timing out. *)
Lemma send_packets_never_returns_witness :
  let ok := λ _ : Z, true in
  let evs := produce lossless ++ [Expire 0; Timeout 0 ok]
             ++ [Main lossless true; Main lossless true;
                 Expire 1; Timeout 1 ok]
             ++ [Main lossless true; Main lossless true] in
  let s := after evs (started 4 (1 # 10) 15) in
  (phase s = InSendPackets ∨ phase s = AtLock) ∧ base s = 0 ∧
  retransmissions (stats s) = 8.
Proof.
  intros ok evs s.
  destruct (send_packets_never_returns 4 (1 # 10) 15 evs s)
    as (Hp & _ & Hb & _); [lia | vm_compute; reflexivity |].
  split_and!; [exact Hp | exact Hb | vm_compute; reflexivity].
Defined.

(** The limit in [wait_for_completion] is never consulted, and partial
    completion is never reported: when the main thread gets there, [base]
    has reached the packet count. *)
Lemma waits_when_done_step n e s s' :
  waits_when_done n s → step e s = Some s' → waits_when_done n s'.
Proof.
  intros [Ht Hp].
  assert (Hsame : ∀ s1, control s1 = control s →
            total_packets (stats s1) = n → base s <= base s1 →
            waits_when_done n s1).
  { intros s1 [Er Eph]%pair_inv Et Eb. split; [done|].
    rewrite Eph, Er. destruct (phase s) as [| | | | | |[r0|]]; try done;
      destruct Hp; (split; [done | lia]). }
  destruct e as [env deadline| |r|t|t ok| |env j c]; simpl.
  - unfold main_step, send_packets_guard. rewrite Ht.
    destruct (phase s) eqn:Ep.
    + destruct (base s <? n) eqn:Eb; rewrite Hp; simpl; intros [= <-].
      * by split.
      * apply Z.ltb_ge in Eb. by split.
    + intros [= <-].
      destruct (pair_inv (send_packets_locked_control env n s)) as [Er Eph].
      destruct (send_packets_locked_base env n s) as [_ Et].
      split; simpl; [congruence | by rewrite Er].
    + destruct Hp as [Hr Hb].
      destruct (Z.ltb_spec (base s) n); [lia|]. simpl. intros [= <-].
      by split.
    + destruct Hp as [Hr Hb]. intros [= <-]. split; simpl.
      * by destruct (tuple5_inv (stop_frame s)) as (_ & -> & _).
      * unfold report. rewrite Ht.
        by destruct (Z.leb_spec n (base s)); [|lia].
    + intros [= <-]. split; simpl; [|done].
      by destruct (tuple5_inv (stop_frame s)) as (_ & -> & _).
    + intros [= <-]. split; simpl; [|done].
      by destruct (tuple5_inv (stop_frame s)) as (_ & -> & _).
    + done.
  - destruct (listener s); [|done..]. intros [= <-]. by apply Hsame.
  - destruct (listener s); [done| |done]. intros [= <-].
    assert (Hack : ∀ ack_num,
              waits_when_done n (set_listener AtWhile (handle_ack ack_num s))).
    { intros ack_num. pose proof (handle_ack_frame ack_num s) as Hf.
      destruct (Z.leb_spec (base s) ack_num);
        apply tuple5_inv in Hf as (_ & Et & Eb & _ & _);
        (apply Hsame; [exact (handle_ack_control ack_num s) | simpl | simpl]);
        first [congruence | lia]. }
    unfold receive_acks_iter, receive_acks_try.
    destruct r as [data| |]; try by apply Hsame.
    destruct (length data =? 4)%nat; [|by apply Hsame].
    destruct (struct_unpack_I data); [apply Hack | by apply Hsame].
  - destruct (memb t (armed s)); [|done]. intros [= <-]. by apply Hsame.
  - destruct (memb t (expired s)); [|done]. intros [= <-].
    set (s1 := set_expired _ s).
    destruct (tuple5_inv (handle_timeout_frame ok s1))
      as (_ & Et & Eb & _ & _).
    apply Hsame; [exact (handle_timeout_control ok s1) | by rewrite Et
                 | by rewrite Eb].
  - destruct (phase s); try done; intros [= <-]; by split.
  - destruct (phase s) eqn:Eph; try done.
    destruct (send_packets_cut _ _ _ _ _) as [s1|] eqn:Ec; [|done].
    intros [= <-]. split; simpl; [|done].
    revert Ec. unfold send_packets_cut.
    destruct (send_some j env _ s) as [s2|] eqn:Ej; [|done].
    assert (E2 : total_packets (stats s2) = n).
    { revert Ej.
      apply (send_some_invariant (λ s2, total_packets (stats s2) = n));
        [|done].
      intros s0 E _.
      by destruct (tuple5_inv (send_next_frame env s0)) as (_ & -> & _). }
    destruct c as [|c|c].
    + by intros [= <-].
    + destruct (window_open _ s2); [|done]. intros [= <-].
      by destruct (tuple5_inv (send_packet_cut_frame c env (next_seq s2) s2))
        as (_ & -> & _).
    + destruct (_ && _ && _); [|done]. intros [= <-].
      by destruct (tuple5_inv (start_timer_cut_frame c s2)) as (_ & -> & _).
Qed.

Lemma partial_never_reported ws rate n evs s r :
  run evs (started ws rate n) = Some s →
  phase s = Stopped (Some r) → r = AllConfirmed.
Proof.
  intros Hrun Hp.
  assert (H : waits_when_done n s).
  { revert Hrun. apply (run_if_invariant (waits_when_done n)).
    - intros e s1 s2 H _. by apply waits_when_done_step.
    - by split. }
  destruct H as [_ H]. by rewrite Hp in H.
Qed.

(** When every packet is acknowledged the session does end, and reports
    that all packets were confirmed. *)
Lemma scenario_A_completes :
  let s := after scenario_A (started 4 0 15) in
  run scenario_A (started 4 0 15) = Some s ∧
  base s = 15 ∧ retransmissions (stats s) = 0 ∧
  packets_lost (stats s) = 0 ∧
  sendto_calls s = map make_packet (seqZ 0 15) ∧
  phase s = Stopped (Some AllConfirmed) ∧ running s = false.
Proof.
  intros s. split_and!; vm_compute; reflexivity.
Qed.

(** ** The acknowledgment listener *)

(** C7.  A datagram of exactly four bytes is decoded as the unsigned
    big-endian number they spell and passed to [handle_ack]; for a datagram
    of any other length the [try] body of the listener returns normally
    with the state unchanged, so nothing is decoded, nothing changes and no
    exception is raised. *)
Theorem receive_acks_length (data : list byte) (s : Session) :
  (length data = 4%nat ↔ is_Some (struct_unpack_I data)) ∧
  (∀ b0 b1 b2 b3, data = [b0; b1; b2; b3] →
     let ack_num :=
       Z_of_byte b0 * 2 ^ 24 + Z_of_byte b1 * 2 ^ 16
       + Z_of_byte b2 * 2 ^ 8 + Z_of_byte b3 in
     0 <= ack_num < 2 ^ 32 ∧
     receive_acks_try (Datagram data) s = Returns (handle_ack ack_num s) ∧
     receive_acks_iter (Datagram data) s = handle_ack ack_num s) ∧
  (length data ≠ 4%nat →
     receive_acks_try (Datagram data) s = Returns s ∧
     receive_acks_iter (Datagram data) s = s).
Proof.
  split_and!.
  - symmetry. apply struct_unpack_I_length.
  - intros b0 b1 b2 b3 -> ack_num.
    assert (E : struct_unpack_I [b0; b1; b2; b3] = Some ack_num).
    { simpl. f_equal. subst ack_num. lia. }
    split; [by eapply struct_unpack_I_range|].
    unfold receive_acks_iter, receive_acks_try. rewrite E. done.
  - intros Hlen. unfold receive_acks_iter, receive_acks_try.
    destruct (Nat.eqb_spec (length data) 4); done.
Qed.

(** Scenario D: a three-byte datagram. *)
Lemma receive_acks_length_witness :
  let s := after (produce lossless ++ [ListenerLoop])
                 (started 4 (1 # 10) 15) in
  receive_acks_iter (Datagram [x00; x00; x02]) s = s ∧
  step (Listener (Datagram [x00; x00; x02])) s = Some (set_listener AtWhile s).
Proof.
  intros s.
  assert (Hl : listener s = InTry) by (vm_compute; reflexivity).
  destruct (receive_acks_length [x00; x00; x02] s) as (_ & _ & H).
  destruct H as [_ H]; [simpl; lia|].
  split; [exact H|]. unfold step. by rewrite Hl, H.
Defined.

(** ** Loss simulation *)

(** What [send_packet] does for an encodable sequence number: the packet is
    stored; it is counted as lost, and no socket call is made, exactly when
    the draw is at most the loss rate. *)
Lemma send_packet_decision env q s :
  packable q = true →
  let s' := send_packet env q s in
  packet_data s' !! q = Some (make_packet q) ∧
  if Qle_bool (random_random env q) (packet_loss_rate s)
  then sendto_calls s' = sendto_calls s ∧
       packets_lost (stats s') = packets_lost (stats s) + 1 ∧
       packets_sent (stats s') = packets_sent (stats s)
  else sendto_calls s' = sendto_calls s ++ [make_packet q] ∧
       packets_lost (stats s') = packets_lost (stats s).
Proof.
  intros Hp. unfold send_packet. rewrite Hp. simpl.
  destruct (Qle_bool _ _); simpl.
  - by rewrite lookup_insert_eq.
  - destruct (sendto_returns env q); simpl; by rewrite lookup_insert_eq.
Qed.

(** With a positive draw, a loss rate of zero loses nothing. *)
Lemma send_packet_zero_rate env q s :
  packable q = true → packet_loss_rate s = 0%Q →
  (0 < random_random env q)%Q →
  sendto_calls (send_packet env q s) = sendto_calls s ++ [make_packet q] ∧
  packets_lost (stats (send_packet env q s)) = packets_lost (stats s).
Proof.
  intros Hp Hr Hd.
  destruct (send_packet_decision env q s Hp) as [_ H]. rewrite Hr in H.
  destruct (Qle_bool (random_random env q) 0) eqn:E; [|done].
  apply Qle_bool_iff in E. exfalso. by apply (Qlt_not_le _ _ Hd).
Qed.

(** C8 fails on the code.  [send_packet] drops when
    [random.random() <= packet_loss_rate], and [random.random()] ranges
    over [0.0 <= x < 1.0]: with a loss rate of 0 the draw 0.0 is a simulated
    loss.  First the single call, then Scenario A ([window_size = 4], 15
    packets, loss rate 0) with that draw: the first four packets are all
    counted as lost and none is put on the wire. *)
Theorem zero_rate_drops :
  let s0 := started 4 0 15 in
  (let s := send_packet draws_zero 0 s0 in
   Qle_bool (random_random draws_zero 0) (packet_loss_rate s0) = true ∧
   packets_lost (stats s) = 1 ∧ packets_sent (stats s) = 0 ∧
   sendto_calls s = [] ∧ packet_data s !! 0 = Some (make_packet 0)) ∧
  (let s := after (produce draws_zero) s0 in
   run (produce draws_zero) s0 = Some s ∧ next_seq s = 4 ∧
   packets_lost (stats s) = 4 ∧ sendto_calls s = []).
Proof.
  intros s0. split; intros s; split_and!; vm_compute; reflexivity.
Qed.

(** ** Retransmission and the loss simulation *)

Lemma retransmit_set_rate ok r s q :
  retransmit ok (set_packet_loss_rate r s) q
  = set_packet_loss_rate r (retransmit ok s q).
Proof.
  unfold retransmit. simpl. destruct (packet_data s !! q); [|done].
  by destruct (ok q).
Qed.

Lemma foldl_retransmit_set_rate ok r l s :
  foldl (retransmit ok) (set_packet_loss_rate r s) l
  = set_packet_loss_rate r (foldl (retransmit ok) s l).
Proof.
  revert s. induction l as [|q l IH]; intros s; simpl; [done|].
  by rewrite retransmit_set_rate, IH.
Qed.

Lemma handle_timeout_set_rate ok r s :
  handle_timeout ok (set_packet_loss_rate r s)
  = set_packet_loss_rate r (handle_timeout ok s).
Proof.
  unfold handle_timeout. simpl. destruct (running s); simpl; [|done].
  change (bump timeouts set_timeouts (set_packet_loss_rate r s))
    with (set_packet_loss_rate r (bump timeouts set_timeouts s)).
  rewrite foldl_retransmit_set_rate.
  unfold start_timer. simpl. done.
Qed.

(** C9.  [handle_timeout] never consults the loss simulation: it leaves the
    count of simulated losses alone, it does the same whatever the loss
    rate is, and while the session runs it passes to [sendto] the stored
    bytes of every sequence number of [base, ..., next_seq - 1] that has an
    entry. *)
Theorem retransmission_bypasses_loss (ok : Z → bool) (s : Session) :
  packets_lost (stats (handle_timeout ok s)) = packets_lost (stats s) ∧
  (∀ rate, handle_timeout ok (set_packet_loss_rate rate s)
           = set_packet_loss_rate rate (handle_timeout ok s)) ∧
  (running s = true →
     sendto_calls (handle_timeout ok s)
     = sendto_calls s
       ++ omap (λ k, packet_data s !! k) (range (base s) (next_seq s))).
Proof.
  split_and!.
  - unfold handle_timeout. destruct (running s); [|done]. simpl.
    unfold start_timer. simpl.
    by rewrite (foldl_retransmit_preserves (λ s, packets_lost (stats s)) ok
                  (retransmit_lost ok)).
  - intros rate. apply handle_timeout_set_rate.
  - intros Hrun. apply (handle_timeout_running ok s Hrun).
Qed.

(** With a loss rate of 1 every first transmission is dropped and every
    retransmission is sent. *)
Lemma retransmission_bypasses_loss_witness :
  let evs := produce lossless ++ [Expire 0] in
  let s := after evs (started 4 1 15) in
  sendto_calls s = [] ∧ packets_lost (stats s) = 4 ∧
  sendto_calls (handle_timeout (λ _, true) s)
  = omap (λ k, packet_data s !! k) (range (base s) (next_seq s)) ∧
  packets_lost (stats (handle_timeout (λ _, true) s)) = 4.
Proof.
  intros evs s.
  assert (Hc : sendto_calls s = []) by (vm_compute; reflexivity).
  assert (Hl : packets_lost (stats s) = 4) by (vm_compute; reflexivity).
  destruct (retransmission_bypasses_loss (λ _, true) s) as (H1 & _ & H3).
  split_and!; [exact Hc | exact Hl | |].
  - rewrite H3 by (vm_compute; reflexivity). by rewrite Hc.
  - by rewrite H1.
Defined.

(** ** Packets dropped by the loss simulation *)





(** * Further properties of the client *)

(** ** The codec, both ways *)

Lemma byte_of_Z_mod z b : z mod 256 = Z_of_byte b → byte_of_Z z = b.
Proof.
  intros H. unfold byte_of_Z. rewrite H. unfold Z_of_byte.
  by rewrite N2Z.id, Byte.of_to_N.
Qed.

Lemma struct_pack_unpack data a :
  struct_unpack_I data = Some a → struct_pack_I a = data.
Proof.
  destruct data as [|b0 [|b1 [|b2 [|b3 [|b4 data]]]]]; simpl; try done.
  intros [= <-].
  pose proof (Z_of_byte_range b0). pose proof (Z_of_byte_range b1).
  pose proof (Z_of_byte_range b2). pose proof (Z_of_byte_range b3).
  unfold struct_pack_I. rewrite !Z.shiftr_div_pow2 by lia.
  change (2 ^ 24) with 16777216. change (2 ^ 16) with 65536.
  change (2 ^ 8) with 256.
  repeat f_equal; apply byte_of_Z_mod; Z.div_mod_to_equations; lia.
Qed.

(** X1.  [struct.pack('!I', n)] and [struct.unpack('!I', data)] are inverse
    to each other: every number of [0 .. 2^32-1] is decoded from its four
    bytes, and every four-byte datagram is the encoding of the number
    decoded from it, which lies in that range. *)
Theorem codec_round_trip (n : Z) (data : list byte) (a : Z) :
  (packable n = true → struct_unpack_I (struct_pack_I n) = Some n) ∧
  (struct_unpack_I data = Some a →
     struct_pack_I a = data ∧ packable a = true).
Proof.
  split; [apply struct_unpack_pack|].
  intros H. split; [by apply struct_pack_unpack|].
  apply struct_unpack_I_range in H. unfold packable.
  apply andb_true_intro. split; [apply Z.leb_le | apply Z.ltb_lt]; lia.
Qed.

Lemma codec_round_trip_witness :
  struct_unpack_I (struct_pack_I 4000000000) = Some 4000000000 ∧
  struct_pack_I 258 = [x00; x00; x01; x02].
Proof.
  destruct (codec_round_trip 4000000000 [x00; x00; x01; x02] 258)
    as [H1 H2].
  split; [by apply H1 | by apply H2].
Defined.

(** X2.  The packets of two different sequence numbers of [0 .. 2^32-1]
    differ: the receiver reads the sequence number back from the first four
    bytes. *)
Theorem make_packet_inj (a b : Z) :
  packable a = true → packable b = true → a ≠ b →
  make_packet a ≠ make_packet b ∧
  struct_unpack_I (take 4 (make_packet a)) = Some a.
Proof.
  intros Ha Hb Hne.
  assert (Hhead : ∀ n, take 4 (make_packet n) = struct_pack_I n) by done.
  split; [|by rewrite Hhead, struct_unpack_pack].
  intros H. apply (f_equal (take 4)) in H. rewrite !Hhead in H.
  apply (f_equal struct_unpack_I) in H.
  rewrite !struct_unpack_pack in H by done. by injection H.
Qed.

Lemma make_packet_inj_witness :
  make_packet 3 ≠ make_packet 259 ∧
  struct_unpack_I (take 4 (make_packet 3)) = Some 3.
Proof. apply (make_packet_inj 3 259); [reflexivity | reflexivity | lia]. Defined.

(** X3.  A data packet is never taken for an acknowledgment: it is longer
    than four bytes, so the listener leaves the state alone when one comes
    back to the client. *)
Theorem data_packet_not_ack (seq_num : Z) (s : Session) :
  struct_unpack_I (make_packet seq_num) = None ∧
  receive_acks_try (Datagram (make_packet seq_num)) s = Returns s ∧
  receive_acks_iter (Datagram (make_packet seq_num)) s = s.
Proof.
  unfold receive_acks_iter, receive_acks_try, make_packet, payload.
  unfold struct_pack_I. simpl. done.
Qed.

(** ** Steps and the ledger *)

Lemma start_timer_ledger s : ledger (start_timer s) = ledger s.
Proof. by_cases. Qed.

Lemma stop_timer_ledger s : ledger (stop_timer s) = ledger s.
Proof. by_cases. Qed.

Lemma restart_timer_ledger s : ledger (restart_timer s) = ledger s.
Proof.
  unfold restart_timer. by rewrite start_timer_ledger, stop_timer_ledger.
Qed.

Lemma stop_ledger s : ledger (stop s) = ledger s.
Proof. by_cases. Qed.

Lemma start_timer_cut_ledger c s : ledger (start_timer_cut c s) = ledger s.
Proof. by_cases. Qed.

Lemma run_forall_invariant (P : Session → Prop) (R : Event → Prop) :
  (∀ e s s', P s → R e → step e s = Some s' → P s') →
  ∀ evs s s', Forall R evs → P s → run evs s = Some s' → P s'.
Proof.
  intros Hstep evs. unfold run.
  induction evs as [|e evs IH]; intros s s' HR H; simpl.
  - by intros [= <-].
  - apply Forall_cons in HR as [He HR].
    destruct (step e s) as [s1|] eqn:Es; [|done]. eauto.
Qed.

(** A property of the ledger is kept by every step once it is kept by an
    iteration of the producer's loop, by an acknowledgment, by the count of
    a timeout, by a retransmission and by a call of [send_packet] cut
    short.  [E] is what the events considered, those of [R], tell about the
    environment of a transmission. *)
Lemma ledger_step (P : Session → Prop) (R : Event → Prop)
    (E : SendEnv → Prop) :
  (∀ env deadline, R (Main env deadline) → E env) →
  (∀ env j c, R (InterruptLocked env j c) → E env) →
  (∀ s s', ledger s' = ledger s →
           (interrupted s = true → interrupted s' = true) → P s → P s') →
  (∀ env s, P s → E env → interrupted s = false →
            window_open (total_packets (stats s)) s = true →
            P (send_next env s)) →
  (∀ ack_num s, P s → P (handle_ack ack_num s)) →
  (∀ s, P s → P (bump timeouts set_timeouts s)) →
  (∀ t ok s q, P s → R (Timeout t ok) → P (retransmit ok s q)) →
  (∀ c env s, P s → E env → interrupted s = false →
              window_open (total_packets (stats s)) s = true →
              P (set_phase Raised (send_packet_cut c env (next_seq s) s))) →
  ∀ e s s', P s → R e → step e s = Some s' → P s'.
Proof.
  intros Hmain Hint Hmono Hsend Hack Htick Hre Hcut e s s' H HR.
  assert (Hsame : ∀ s1 s2, ledger s2 = ledger s1 → phase s2 = phase s1 →
                           P s1 → P s2).
  { intros s1 s2 Hf Hp. apply Hmono; [done|].
    by rewrite (interrupted_phase _ _ Hp). }
  assert (Hloop : ∀ env, E env → ∀ s1, phase s1 = AtLock →
            ∀ s2, P s2 ∧ phase s2 = AtLock ∧
                  total_packets (stats s2) = total_packets (stats s1) →
                  window_open (total_packets (stats s1)) s2 = true →
                  P (send_next env s2) ∧ phase (send_next env s2) = AtLock ∧
                  total_packets (stats (send_next env s2))
                  = total_packets (stats s1)).
  { intros env He s1 _ s2 (HP & Hph & Hn) Hopen.
    destruct (tuple5_inv (send_next_frame env s2)) as (_ & Et & _).
    destruct (pair_inv (send_next_control env s2)) as [_ Ep].
    split_and!; [|congruence.. ].
    apply Hsend; [done | done | unfold interrupted; by rewrite Hph
                 | by rewrite Hn]. }
  destruct e as [env deadline| |r|t|t ok| |env j c]; simpl.
  - unfold main_step, finish.
    destruct (phase s) eqn:Eph.
    + case_match; intros [= <-];
        (apply (Hmono s); [done | unfold interrupted; by rewrite Eph | done]).
    + intros [= <-]. unfold send_packets_locked.
      set (n := total_packets (stats s)).
      set (s1 := send_window (Z.to_nat (n - next_seq s)) env n s).
      destruct (send_window_invariant
                  (λ s2, P s2 ∧ phase s2 = AtLock ∧ total_packets (stats s2) = n)
                  env n (Hloop env (Hmain _ _ HR) s Eph)
                  (Z.to_nat (n - next_seq s)) s)
        as (HP & Hp1 & _); [done|]. fold s1 in HP, Hp1.
      case_match;
        (apply (Hmono s1);
         [try done; exact (start_timer_ledger s1)
         | unfold interrupted; by rewrite Hp1 | done]).
    + repeat case_match; intros [= <-]; try done;
        (apply (Hmono s);
         [done | unfold interrupted; by rewrite Eph | done]).
    + intros [= <-].
      apply (Hmono s);
        [exact (stop_ledger s) | unfold interrupted; by rewrite Eph | done].
    + intros [= <-]. apply (Hmono s); [exact (stop_ledger s) | done | done].
    + intros [= <-]. apply (Hmono s); [exact (stop_ledger s) | done | done].
    + done.
  - destruct (listener s); [|done..]. intros [= <-]. by apply (Hsame s).
  - destruct (listener s) eqn:El; [done| |done]. intros [= <-].
    assert (Hl : ∀ s1, P s1 → P (set_listener AtWhile s1))
      by (intros s1; by apply Hsame).
    apply Hl. unfold receive_acks_iter, receive_acks_try.
    destruct r as [data| |]; try done.
    destruct (length data =? 4)%nat; [|done].
    destruct (struct_unpack_I data) as [a|] eqn:Ed; [|done].
    by apply Hack.
  - case_match; [|done]. intros [= <-]. by apply (Hsame s).
  - case_match; [|done]. intros [= <-].
    set (s1 := set_expired _ s).
    assert (H1 : P s1) by by apply (Hsame s).
    unfold handle_timeout. case_match; [done|].
    set (l := range _ _).
    assert (Htk : P (bump timeouts set_timeouts s1)) by by apply Htick.
    assert (Hfold : ∀ s2, P s2 → P (foldl (retransmit ok) s2 l)).
    { induction l as [|q l IH]; intros s2 Hs2; simpl; [done|].
      apply IH. by apply (Hre t). }
    set (s3 := foldl (retransmit ok) (bump timeouts set_timeouts s1) l).
    assert (H3 : P s3) by by apply Hfold.
    apply (Hsame s3); [|by_cases|done].
    exact (start_timer_ledger (set_timer_active false s3)).
  - destruct (phase s) eqn:Eph; try done; intros [= <-];
      by apply (Hmono s).
  - destruct (phase s) eqn:Eph; try done.
    unfold send_packets_cut. set (n := total_packets (stats s)).
    destruct (send_some j env n s) as [s1|] eqn:Ej; [|done].
    destruct (send_some_invariant
                (λ s2, P s2 ∧ phase s2 = AtLock ∧ total_packets (stats s2) = n)
                env n (Hloop env (Hint _ _ _ HR) s Eph) j s s1)
      as (HP & Hp1 & Hn1); [done | done |].
    destruct c as [|c|c].
    + intros [= <-]. by apply (Hmono s1).
    + destruct (window_open n s1) eqn:Hopen; [|done]. intros [= <-].
      apply Hcut; [done | by apply (Hint _ j (InSendPacket c))
                  | unfold interrupted; by rewrite Hp1 | by rewrite Hn1].
    + destruct (_ && _ && _); [|done]. intros [= <-].
      apply (Hmono s1); [exact (start_timer_cut_ledger c s1) | done | done].
Qed.

(** The same for a property that depends neither on where the threads are
    nor on the events. *)
Lemma ledger_step_plain (P : Session → Prop) :
  (∀ s s', ledger s' = ledger s → P s → P s') →
  (∀ env s, P s → P (send_next env s)) →
  (∀ ack_num s, P s → P (handle_ack ack_num s)) →
  (∀ s, P s → P (bump timeouts set_timeouts s)) →
  (∀ ok s q, P s → P (retransmit ok s q)) →
  (∀ c env q s, P s → P (send_packet_cut c env q s)) →
  ∀ e s s', P s → step e s = Some s' → P s'.
Proof.
  intros Hsame Hsend Hack Htick Hre Hcut e s s' H Hs.
  apply (ledger_step P (λ _, True) (λ _, True)) with (e := e) (s := s);
    try done.
  - intros s1 s2 Hl _. by apply Hsame.
  - intros env s1 H1 _ _ _. by apply Hsend.
  - intros _ ok s1 q H1 _. by apply Hre.
  - intros c env s1 H1 _ _ _.
    apply (Hsame (send_packet_cut c env (next_seq s1) s1)); [done|].
    by apply Hcut.
Qed.

(** ** Nothing goes back *)

Lemma advanced_refl s : advanced s s.
Proof. unfold advanced, stats_le. split_and!; done. Qed.

Lemma advanced_trans s1 s2 s3 : advanced s1 s2 → advanced s2 s3 → advanced s1 s3.
Proof.
  unfold advanced, stats_le.
  intros (? & ? & (? & ? & ? & ? & ? & ?) & ? & ? & ?)
         (? & ? & (? & ? & ? & ? & ? & ?) & ? & ? & ?).
  split_and!; try lia; try congruence. by etrans.
Qed.

Lemma advanced_same s s' : ledger s' = ledger s → advanced s s'.
Proof.
  intros (Hf & _ & Hc & Hs & Hr)%tuple5_inv.
  apply tuple5_inv in Hf as (Hw & _ & Hb & Hn & _).
  unfold advanced, stats_le. rewrite Hb, Hn, Hc, Hs, Hw, Hr.
  split_and!; done.
Qed.

Ltac advance :=
  unfold advanced, stats_le; simpl; split_and!;
  try done; try lia; try (by apply prefix_app_r).

Lemma advanced_send_next env s : advanced s (send_next env s).
Proof.
  unfold send_next, send_packet, sendto, bump.
  repeat case_match; advance.
Qed.

Lemma advanced_cut c env q s : advanced s (send_packet_cut c env q s).
Proof.
  unfold send_packet_cut, sendto, bump.
  repeat case_match; advance.
Qed.

Lemma advanced_handle_ack ack_num s : advanced s (handle_ack ack_num s).
Proof.
  unfold handle_ack. simpl.
  destruct (Z.leb_spec (base s) ack_num); [|advance].
  set (s1 := set_packet_data _ _).
  apply (advanced_trans _ s1); [advance|]. apply advanced_same.
  destruct (_ <? _); [apply restart_timer_ledger | apply stop_timer_ledger].
Qed.

Lemma advanced_retransmit ok s q : advanced s (retransmit ok s q).
Proof.
  unfold retransmit, sendto, bump. repeat case_match; advance.
Qed.

Lemma advanced_step e s s' : step e s = Some s' → advanced s s'.
Proof.
  intros Hs.
  apply (ledger_step_plain (advanced s)) with (e := e) (s := s);
    [| | | | | | apply advanced_refl | done].
  - intros s1 s2 Hl H. eapply advanced_trans; [exact H|].
    by apply advanced_same.
  - intros env s1 H. eapply advanced_trans; [exact H|].
    apply advanced_send_next.
  - intros a s1 H. eapply advanced_trans; [exact H|].
    apply advanced_handle_ack.
  - intros s1 H. eapply advanced_trans; [exact H|]. advance.
  - intros ok s1 q H. eapply advanced_trans; [exact H|].
    apply advanced_retransmit.
  - intros c env q s1 H. eapply advanced_trans; [exact H|].
    apply advanced_cut.
Qed.

(** X4.  Nothing goes back in a run, from any state: [base] and [next_seq]
    never decrease, no counter decreases, the packet count, the window size
    and the loss rate stay, and the socket calls made so far stay as they
    are, later calls coming after them. *)
Theorem never_goes_back (evs : list Event) (s s' : Session) :
  run evs s = Some s' → advanced s s'.
Proof.
  apply (run_if_invariant (advanced s) (λ _ _, true)); [|apply advanced_refl].
  intros e s1 s2 H _ Hs. eapply advanced_trans; [exact H|].
  by apply (advanced_step e).
Qed.

Lemma never_goes_back_witness :
  let s := after (produce lossless ++ acked 1) (started 4 (1 # 10) 15) in
  let evs := produce lossless ++ acked 0 ++ [Expire 1; Timeout 1 (λ _, true)] in
  let s' := after evs s in
  base s = 2 ∧ base s' = 2 ∧ advanced s s'.
Proof.
  intros s evs s'. split; [vm_compute; reflexivity|].
  split; [vm_compute; reflexivity|].
  apply (never_goes_back evs). vm_compute. reflexivity.
Defined.

(** ** What is stored and what is sent *)

Lemma Wire_same n s s' :
  ledger s' = ledger s → (interrupted s = true → interrupted s' = true) →
  Wire n s → Wire n s'.
Proof.
  intros (Hf & Hsent & Hc & Hs & _)%tuple5_inv Hi [].
  apply tuple5_inv in Hf as (_ & _ & _ & Hn & Hd).
  constructor; rewrite ?Hs, ?Hn, ?Hd, ?Hsent, ?Hc; try done.
  intros k b Hk. destruct (wire_data0 k b Hk) as (? & ? & ? & ? & Hlt).
  split_and!; try done. intros Hni. apply Hlt.
  destruct (interrupted s); [|done]. by rewrite Hi in Hni.
Qed.

Lemma Wire_started ws rate n : Wire n (started ws rate n).
Proof. constructor; simpl; done. Qed.

(** What a call of [send_packet], whole or cut short, does to
    [sent_packets] and to the socket. *)
Lemma send_packet_cut_sent c env q s :
  let s' := send_packet_cut c env q s in
  (sent_packets s' = sent_packets s ∨
   packable q = true ∧
   sent_packets s' = <[q := make_packet q]> (sent_packets s)) ∧
  (sendto_calls s' = sendto_calls s ∨
   packable q = true ∧ sendto_calls s' = sendto_calls s ++ [make_packet q]).
Proof.
  unfold send_packet_cut, sendto, bump.
  destruct (packable q); simpl; [|by split; left].
  repeat case_match; simpl; split; auto.
Qed.

Lemma send_next_sent env s :
  (sent_packets (send_next env s) = sent_packets s ∨
   packable (next_seq s) = true ∧
   sent_packets (send_next env s)
   = <[next_seq s := make_packet (next_seq s)]> (sent_packets s)) ∧
  (sendto_calls (send_next env s) = sendto_calls s ∨
   packable (next_seq s) = true ∧
   sendto_calls (send_next env s)
   = sendto_calls s ++ [make_packet (next_seq s)]).
Proof.
  unfold send_next. rewrite <- send_packet_cut_return.
  exact (send_packet_cut_sent AfterReturn env (next_seq s) s).
Qed.

(** The store, [sent_packets] and the socket calls after the packet for
    [next_seq] may have been stored, recorded as sent and passed to the
    socket. *)
Lemma Wire_store n s s' :
  Wire n s → interrupted s = false → next_seq s < n →
  total_packets (stats s') = n →
  next_seq s <= next_seq s' →
  (interrupted s' = false → next_seq s' = next_seq s + 1) →
  packet_data s'
  = (if packable (next_seq s)
     then <[next_seq s := make_packet (next_seq s)]> (packet_data s)
     else packet_data s) →
  (sent_packets s' = sent_packets s ∨
   packable (next_seq s) = true ∧
   sent_packets s' = <[next_seq s := make_packet (next_seq s)]> (sent_packets s)) →
  (sendto_calls s' = sendto_calls s ∨
   packable (next_seq s) = true ∧
   sendto_calls s' = sendto_calls s ++ [make_packet (next_seq s)]) →
  Wire n s'.
Proof.
  intros [] Hni Hlt Et Hle Hnext Ed Hsent Hcalls.
  assert (Hdata : ∀ k b, packet_data s' !! k = Some b →
            b = make_packet k ∧ packable k = true ∧ k < n ∧
            k <= next_seq s' ∧ (interrupted s' = false → k < next_seq s')).
  { intros k b. rewrite Ed. destruct (packable (next_seq s)) eqn:Hp.
    - rewrite lookup_insert. case_decide as Hk.
      + intros [= <-]. subst k. split_and!; try done. intros H.
        specialize (Hnext H). lia.
      + intros Hkb. destruct (wire_data0 k b Hkb) as (? & ? & ? & ? & Hk').
        specialize (Hk' Hni). split_and!; try done; try lia.
    - intros Hkb. destruct (wire_data0 k b Hkb) as (? & ? & ? & ? & Hk').
      specialize (Hk' Hni). split_and!; try done; try lia. }
  constructor; try done.
  - apply map_subseteq_spec. intros k b Hk.
    assert (Hin : sent_packets s !! k = Some b →
                  packet_data s' !! k = Some b).
    { intros Hs. pose proof Hs as Hpd.
      eapply (map_subseteq_spec (sent_packets s)) in Hpd; [|done].
      rewrite Ed. case_match; [|done].
      rewrite lookup_insert. case_decide; [|done]. subst k.
      by destruct (wire_data0 _ _ Hpd) as (-> & _). }
    destruct Hsent as [Hsent|[Hp Hsent]]; rewrite Hsent in Hk; [auto|].
    rewrite lookup_insert in Hk. case_decide; [|auto].
    rewrite Ed, Hp. subst k. by rewrite lookup_insert_eq.
  - destruct Hcalls as [->|[Hp ->]]; [done|].
    apply Forall_app. split; [done|]. apply Forall_singleton.
    exists (next_seq s). split_and!; done.
Qed.

Lemma Wire_window_open n s :
  Wire n s → window_open (total_packets (stats s)) s = true → next_seq s < n.
Proof.
  intros [] Hopen. unfold window_open in Hopen. rewrite wire_total0 in Hopen.
  apply andb_prop in Hopen as [[_ H2]%andb_prop _]. by apply Z.ltb_lt in H2.
Qed.

Lemma Wire_send_next n env s :
  Wire n s → interrupted s = false →
  window_open (total_packets (stats s)) s = true →
  Wire n (send_next env s).
Proof.
  intros H Hni Hopen. pose proof (Wire_window_open n s H Hopen) as Hlt.
  destruct (tuple5_inv (send_next_frame env s)) as (_ & Et & _ & En & Ed).
  destruct (send_next_sent env s) as [Hsent Hcalls].
  apply (Wire_store n s); try done; try lia.
  by rewrite Et, (wire_total n s H).
Qed.

Lemma Wire_cut n c env s :
  Wire n s → interrupted s = false →
  window_open (total_packets (stats s)) s = true →
  Wire n (set_phase Raised (send_packet_cut c env (next_seq s) s)).
Proof.
  intros H Hni Hopen. pose proof (Wire_window_open n s H Hopen) as Hlt.
  destruct (tuple5_inv (send_packet_cut_frame c env (next_seq s) s))
    as (_ & Et & _ & En & Ed).
  destruct (send_packet_cut_sent c env (next_seq s) s) as [Hsent Hcalls].
  apply (Wire_store n s); simpl; try done; try lia.
  by rewrite Et, (wire_total n s H).
Qed.

Lemma handle_ack_calls ack_num s :
  sendto_calls (handle_ack ack_num s) = sendto_calls s.
Proof. by_cases. Qed.

Lemma Wire_handle_ack n ack_num s : Wire n s → Wire n (handle_ack ack_num s).
Proof.
  intros []. pose proof (handle_ack_frame ack_num s) as Hf.
  destruct (pair_inv (handle_ack_control ack_num s)) as [_ Ep].
  pose proof (interrupted_phase _ _ Ep) as Ei.
  destruct (Z.leb_spec (base s) ack_num) as [Hle|Hlt].
  - apply tuple5_inv in Hf as (_ & Et & _ & En & Ed).
    constructor;
      rewrite ?Et, ?En, ?Ed, ?Ei, ?handle_ack_calls, ?handle_ack_sent by done;
      try done.
    + intros k b. rewrite purge_lookup. case_decide; [done | auto].
    + apply map_subseteq_spec. intros k b. rewrite !purge_lookup.
      case_decide; [done|]. by apply map_subseteq_spec.
  - rewrite handle_ack_stale by done. by constructor.
Qed.

Lemma Wire_retransmit n ok s q : Wire n s → Wire n (retransmit ok s q).
Proof.
  intros []. unfold retransmit.
  destruct (packet_data s !! q) as [p|] eqn:Hq; [|done].
  destruct (wire_data0 q p Hq) as (-> & Hp & Hlt & _).
  assert (Hc : Forall (λ p, ∃ k, packable k = true ∧ k < n ∧
                            p = make_packet k)
                 (sendto_calls s ++ [make_packet q])).
  { apply Forall_app. split; [done|]. apply Forall_singleton. eauto. }
  destruct (ok q); constructor; simpl; try done.
  by apply insert_subseteq_l.
Qed.

Lemma Wire_step n e s s' : Wire n s → step e s = Some s' → Wire n s'.
Proof.
  intros H Hs.
  apply (ledger_step (Wire n) (λ _, True) (λ _, True)) with (e := e) (s := s);
    try done.
  - apply Wire_same.
  - intros env s1 H1 _. by apply Wire_send_next.
  - intros a s1. apply Wire_handle_ack.
  - intros s1 []. by constructor.
  - intros _ ok s1 q H1 _. by apply Wire_retransmit.
  - intros c env s1 H1 _. by apply Wire_cut.
Qed.

Lemma Wire_run ws rate n evs s :
  run evs (started ws rate n) = Some s → Wire n s.
Proof.
  apply (run_if_invariant (Wire n) (λ _ _, true)); [|apply Wire_started].
  intros e s1 s2 H _. by apply Wire_step.
Qed.

(** X5.  Whatever happens, the client hands to the socket nothing but data
    packets of its own making, each for a sequence number of
    [0 .. num_packets - 1] that fits the four-byte header: it never sends
    beyond the last packet, and the receiver reads the sequence number back
    from each datagram. *)
Theorem wire_contents (ws : Z) (rate : Q) (n : Z) (evs : list Event)
    (s : Session) (p : list byte) :
  run evs (started ws rate n) = Some s →
  p ∈ sendto_calls s →
  ∃ k, 0 <= k < n ∧ k < 2 ^ 32 ∧ p = make_packet k ∧
       struct_unpack_I (take 4 p) = Some k.
Proof.
  intros Hrun Hp. destruct (Wire_run _ _ _ _ _ Hrun) as [_ _ _ Hc].
  rewrite Forall_forall in Hc. destruct (Hc p Hp) as (k & Hk & Hlt & ->).
  exists k. pose proof Hk as Hk'. unfold packable in Hk'.
  apply andb_prop in Hk' as [H0 H1].
  apply Z.leb_le in H0. apply Z.ltb_lt in H1.
  split_and!; try done; try lia.
  change (take 4 (make_packet k)) with (struct_pack_I k).
  by apply struct_unpack_pack.
Qed.

Lemma wire_contents_witness :
  let evs := produce drops_2 ++ acked 0 ++ produce lossless
             ++ [Expire 1; Timeout 1 (λ _, true)] in
  let s := after evs (started 4 (1 # 10) 6) in
  length (sendto_calls s) = 8%nat ∧
  ∃ k, 0 <= k < 6 ∧ k < 2 ^ 32 ∧ make_packet 2 = make_packet k ∧
       struct_unpack_I (take 4 (make_packet 2)) = Some k.
Proof.
  intros evs s. split; [vm_compute; reflexivity|].
  apply (wire_contents 4 (1 # 10) 6 evs s (make_packet 2));
    [vm_compute; reflexivity|].
  apply list_elem_of_In. vm_compute. tauto.
Defined.

(** X6.  [sent_packets] never holds anything that [packet_data] does not:
    in every run it is a sub-dictionary of the retransmission store, and
    each entry of the store is the packet built for its key, a sequence
    number of the session that is below [next_seq].  The one exception is
    an entry for [next_seq] itself, which only a [KeyboardInterrupt] that
    cut [send_packet] short can leave. *)
Theorem sent_packets_stored (ws : Z) (rate : Q) (n : Z) (evs : list Event)
    (s : Session) :
  run evs (started ws rate n) = Some s →
  sent_packets s ⊆ packet_data s ∧
  ∀ k b, packet_data s !! k = Some b →
         b = make_packet k ∧ 0 <= k < n ∧ k <= next_seq s ∧
         (interrupted s = false → k < next_seq s).
Proof.
  intros Hrun. destruct (Wire_run _ _ _ _ _ Hrun) as [_ Hd Hs _].
  split; [done|]. intros k b Hk.
  destruct (Hd k b Hk) as (-> & Hp & Hlt & Hle & Hni).
  unfold packable in Hp. apply andb_prop in Hp as [H0 _].
  apply Z.leb_le in H0. done.
Qed.

(** Packet 2 is dropped and retransmitted; then the call of [send_packet]
    for packet 4 is interrupted after its [sendto]. *)
Lemma sent_packets_stored_witness :
  let evs := produce drops_2 ++ acked 0 ++ [Expire 1; Timeout 1 (λ _, true)]
             ++ [Main lossless false;
                 InterruptLocked lossless 0 (InSendPacket AfterSendto)] in
  let s := after evs (started 4 (1 # 10) 15) in
  dom (sent_packets s) = {[1; 2; 3]} ∧ next_seq s = 4 ∧
  packet_data s !! 4 = Some (make_packet 4) ∧
  sent_packets s ⊆ packet_data s.
Proof.
  intros evs s. split_and!; [vm_compute; reflexivity.. |].
  apply (sent_packets_stored 4 (1 # 10) 15 evs s). vm_compute. reflexivity.
Defined.

(** ** After the client has stopped *)








(** ** The producer's critical section *)

(** X9.  One pass through the critical section of [send_packets] in a
    running session fills the window: [next_seq] ends at
    [min (base + window_size) num_packets] (or stays, if it was already
    beyond), [base] is untouched, every encodable sequence number passed
    over has its packet in the store, and the timer flag is set if anything
    is in flight. *)
Theorem send_packets_fills_window (env : SendEnv) (n : Z) (s : Session) :
  running s = true →
  let s' := send_packets_locked env n s in
  base s' = base s ∧
  next_seq s' = Z.max (next_seq s) (Z.min (base s + window_size s) n) ∧
  (∀ k, next_seq s <= k < next_seq s' → packable k = true →
        packet_data s' !! k = Some (make_packet k)) ∧
  (base s' < next_seq s' → timer_active s' = true).
Proof.
  intros Hrun s'. subst s'. unfold send_packets_locked.
  set (fuel := Z.to_nat (n - next_seq s)).
  set (s1 := send_window fuel env n s).
  assert (HQ : window_size s1 = window_size s ∧ base s1 = base s ∧
               running s1 = running s ∧
               next_seq s <= next_seq s1
                 <= Z.max (next_seq s) (Z.min (base s + window_size s) n) ∧
               ∀ k, next_seq s <= k < next_seq s1 → packable k = true →
                    packet_data s1 !! k = Some (make_packet k)).
  { apply (send_window_invariant
             (λ s1, window_size s1 = window_size s ∧ base s1 = base s ∧
                    running s1 = running s ∧
                    next_seq s <= next_seq s1
                      <= Z.max (next_seq s)
                           (Z.min (base s + window_size s) n) ∧
                    ∀ k, next_seq s <= k < next_seq s1 →
                         packable k = true →
                         packet_data s1 !! k = Some (make_packet k))).
    - intros s0 (Hw & Hb & Hr & Hn & Hk) Hopen. unfold window_open in Hopen.
      apply andb_prop in Hopen as [[H1 H2]%andb_prop _].
      apply Z.ltb_lt in H1, H2.
      destruct (tuple5_inv (send_next_frame env s0))
        as (Ew & _ & Eb & En & Ed).
      destruct (pair_inv (send_next_control env s0)) as [Er _].
      rewrite Ew, Eb, En, Ed, Er. split_and!; try done; try lia.
      intros k Hkr Hp. destruct (decide (k = next_seq s0)) as [->|Hne].
      + by rewrite Hp, lookup_insert_eq.
      + case_match; [rewrite lookup_insert_ne by done|]; apply Hk; done || lia.
    - split_and!; try done; lia. }
  destruct HQ as (Hw & Hb & Hr & Hn & Hk).
  assert (Hclosed : window_open n s1 = false)
    by (apply send_window_closed; lia).
  unfold window_open in Hclosed. rewrite Hr, Hrun, andb_true_r in Hclosed.
  apply andb_false_iff in Hclosed.
  assert (Hnext : next_seq s1
                  = Z.max (next_seq s) (Z.min (base s + window_size s) n)).
  { destruct Hclosed as [Hc|Hc]; apply Z.ltb_ge in Hc; lia. }
  destruct (tuple5_inv (start_timer_frame s1)) as (_ & _ & Sb & Sn & Sd).
  destruct (timer_active s1) eqn:Ea; simpl.
  - by split_and!.
  - destruct (Z.ltb_spec (base s1) (next_seq s1)).
    + rewrite Sb, Sn, Sd. split_and!; try done.
      intros _. unfold start_timer. by rewrite Ea.
    + split_and!; try done. lia.
Qed.

Lemma send_packets_fills_window_witness :
  let s := after (produce lossless ++ acked 1) (started 4 (1 # 10) 15) in
  let s' := send_packets_locked drops_2 15 s in
  base s = 2 ∧ next_seq s = 4 ∧ next_seq s' = 6 ∧
  packet_data s' !! 5 = Some (make_packet 5).
Proof.
  intros s s'.
  assert (E : base s = 2 ∧ next_seq s = 4 ∧ window_size s = 4)
    by (split_and!; vm_compute; reflexivity).
  destruct (send_packets_fills_window drops_2 15 s) as (_ & Hn & Hk & _);
    [vm_compute; reflexivity|].
  fold s' in Hn, Hk. destruct E as (Eb & En & Ew).
  rewrite Eb, En, Ew in Hn. split_and!; [done | done | exact Hn |].
  apply Hk; [rewrite Hn, En; lia | reflexivity].
Defined.

(** ** The counters *)

Ltac account :=
  unfold accounted, accounted_exactly in *; simpl in *;
  rewrite ?length_app; simpl; lia.

Lemma handle_ack_counts a s :
  packets_sent (stats (handle_ack a s)) = packets_sent (stats s) ∧
  packets_lost (stats (handle_ack a s)) = packets_lost (stats s) ∧
  retransmissions (stats (handle_ack a s)) = retransmissions (stats s) ∧
  next_seq (handle_ack a s) = next_seq s ∧
  total_packets (stats (handle_ack a s)) = total_packets (stats s) ∧
  sendto_calls (handle_ack a s) = sendto_calls s ∧
  interrupted (handle_ack a s) = interrupted s.
Proof.
  destruct (pair_inv (handle_ack_control a s)) as [_ Ep].
  split_and!; [by_cases.. |]. by apply interrupted_phase.
Qed.

Lemma accounted_step e s s' : accounted s → step e s = Some s' → accounted s'.
Proof.
  intros H Hs.
  apply (ledger_step accounted (λ _, True) (λ _, True))
    with (e := e) (s := s); try done.
  - intros s1 s2 (Hf & _ & Hc & Hst & _)%tuple5_inv Hi.
    apply tuple5_inv in Hf as (_ & _ & _ & Hn & _).
    unfold accounted. rewrite Hn, Hc, Hst.
    destruct (interrupted s1); [by rewrite Hi|].
    destruct (interrupted s2); lia.
  - intros env s1 H1 _ Hni _. unfold accounted in *.
    assert (Ei : interrupted (send_next env s1) = interrupted s1).
    { apply interrupted_phase.
      by destruct (pair_inv (send_next_control env s1)). }
    rewrite Ei, Hni in *. revert H1.
    unfold send_next, send_packet, sendto, bump.
    repeat case_match; account.
  - intros a s1 H1.
    destruct (handle_ack_counts a s1) as (E1 & E2 & E3 & En & _ & Hc & Ei).
    unfold accounted. by rewrite E1, E2, E3, En, Hc, Ei.
  - intros _ ok s1 q H1 _. unfold accounted in *.
    assert (Ei : interrupted (retransmit ok s1 q) = interrupted s1).
    { apply interrupted_phase.
      by destruct (pair_inv (retransmit_control ok s1 q)). }
    rewrite Ei. destruct (interrupted s1); revert H1;
      unfold retransmit, sendto, bump; repeat case_match; account.
  - intros c env s1 H1 _ Hni _. unfold accounted in *.
    rewrite Hni in H1. change (interrupted (set_phase Raised _)) with true.
    cbv iota. revert H1. unfold send_packet_cut, sendto, bump.
    repeat case_match; account.
Qed.

(** X10.  The counters that [print_stats] reports never overstate: none is
    negative, the first transmissions counted as sent or as lost are at most
    the [next_seq] packets handed to [send_packet] (and one more, when a
    [KeyboardInterrupt] has cut the session short before [next_seq += 1]),
    and the transmissions counted as sent or as retransmitted are at most
    the socket calls made. *)
Theorem stats_accounted (ws : Z) (rate : Q) (n : Z) (evs : list Event)
    (s : Session) :
  run evs (started ws rate n) = Some s →
  0 <= packets_sent (stats s) ∧ 0 <= packets_lost (stats s) ∧
  0 <= retransmissions (stats s) ∧ 0 <= next_seq s ∧
  packets_sent (stats s) + packets_lost (stats s) <= next_seq s + 1 ∧
  (interrupted s = false →
   packets_sent (stats s) + packets_lost (stats s) <= next_seq s) ∧
  packets_sent (stats s) + retransmissions (stats s)
    <= Z.of_nat (length (sendto_calls s)).
Proof.
  intros Hrun.
  assert (H : accounted s).
  { revert Hrun. apply (run_if_invariant accounted (λ _ _, true)).
    - intros e s1 s2 H _. by apply accounted_step.
    - unfold accounted. simpl. lia. }
  unfold accounted in H. destruct (interrupted s); split_and!; try lia; done.
Qed.

(** A socket failure ([sendto] raises for packet 1) leaves a call that no
    counter records. *)
Lemma stats_accounted_witness :
  let env := mkSendEnv (λ _, 1 # 2)%Q (λ q, negb (q =? 1)) in
  let s := after (produce env) (started 4 (1 # 10) 15) in
  next_seq s = 4 ∧ length (sendto_calls s) = 4%nat ∧
  packets_sent (stats s) = 3 ∧
  packets_sent (stats s) + packets_lost (stats s) <= next_seq s.
Proof.
  intros env s. split_and!; [vm_compute; reflexivity.. |].
  apply (stats_accounted 4 (1 # 10) 15 (produce env) s);
    vm_compute; reflexivity.
Defined.

(** The count that is one too many: [send_packet] has counted packet 2 as
    sent when the [KeyboardInterrupt] is raised, and [next_seq] stays 2. *)
Example interrupt_counts_ahead :
  let evs := [Main lossless false;
              InterruptLocked lossless 2 (InSendPacket AfterReturn)] in
  let s := after evs (started 4 (1 # 10) 15) in
  run evs (started 4 (1 # 10) 15) = Some s ∧
  next_seq s = 2 ∧ packets_sent (stats s) = 3 ∧ packets_lost (stats s) = 0.
Proof. intros evs s. split_and!; vm_compute; reflexivity. Qed.

Lemma accounted_exactly_step e s s' :
  accounted_exactly s → reliable e → step e s = Some s' →
  accounted_exactly s'.
Proof.
  intros H HR Hs.
  apply (ledger_step accounted_exactly reliable
           (λ env, ∀ q, sendto_returns env q = true))
    with (e := e) (s := s); try done.
  - intros s1 s2 (Hf & _ & Hc & Hst & _)%tuple5_inv Hi (H0 & Ht & Hex).
    apply tuple5_inv in Hf as (_ & _ & _ & Hn & _).
    unfold accounted_exactly. rewrite Hn, Hc, Hst.
    split_and!; [done | done |]. intros Hni. apply Hex.
    destruct (interrupted s1); [|done]. by rewrite Hi in Hni.
  - intros env s1 (H0 & Ht & Hex) Hrel Hni Hopen.
    specialize (Hex Hni). unfold window_open in Hopen.
    apply andb_prop in Hopen as [[_ H2]%andb_prop _]. apply Z.ltb_lt in H2.
    assert (Hp : packable (next_seq s1) = true).
    { unfold packable.
      apply andb_true_intro. split; [apply Z.leb_le | apply Z.ltb_lt]; lia. }
    unfold accounted_exactly. revert Hex.
    unfold send_next, send_packet, sendto, bump. rewrite Hp, Hrel. simpl.
    case_match; simpl; rewrite ?length_app; simpl; intros [? ?];
      split_and!; try done; try lia; intros _; lia.
  - intros a s1 (H0 & Ht & Hex).
    destruct (handle_ack_counts a s1) as (E1 & E2 & E3 & En & Et & Hc & Ei).
    unfold accounted_exactly. by rewrite E1, E2, E3, En, Et, Hc, Ei.
  - intros t ok s1 q (H0 & Ht & Hex) Hrel. simpl in Hrel.
    assert (Ei : interrupted (retransmit ok s1 q) = interrupted s1).
    { apply interrupted_phase.
      by destruct (pair_inv (retransmit_control ok s1 q)). }
    destruct (tuple5_inv (retransmit_frame ok s1 q)) as (_ & Et & _ & En & _).
    unfold accounted_exactly. rewrite Ei, Et, En.
    split_and!; [done | done |]. intros Hni. specialize (Hex Hni).
    revert Hex. unfold retransmit, sendto, bump. rewrite Hrel.
    case_match; simpl; rewrite ?length_app; simpl; lia.
  - intros c env s1 (H0 & Ht & Hex) _ _ _.
    destruct (tuple5_inv (send_packet_cut_frame c env (next_seq s1) s1))
      as (_ & Et & _ & En & _).
    unfold accounted_exactly. simpl. rewrite Et, En. by split_and!.
Qed.

(** X11.  When no socket call raises, in a session of at most [2^32]
    packets, the counters are exact until a [KeyboardInterrupt] is raised:
    every packet handed to [send_packet] is counted once, as sent or as
    lost, and every socket call is counted once, as a first transmission or
    as a retransmission. *)
Theorem stats_exact (ws : Z) (rate : Q) (n : Z) (evs : list Event)
    (s : Session) :
  n <= 2 ^ 32 →
  Forall reliable evs →
  run evs (started ws rate n) = Some s →
  interrupted s = false →
  packets_sent (stats s) + packets_lost (stats s) = next_seq s ∧
  packets_sent (stats s) + retransmissions (stats s)
    = Z.of_nat (length (sendto_calls s)).
Proof.
  intros Hn Hrel Hrun Hni.
  assert (H : accounted_exactly s).
  { revert Hrun.
    apply (run_forall_invariant accounted_exactly reliable); [|done|].
    - apply accounted_exactly_step.
    - unfold accounted_exactly. simpl. split_and!; [lia | done | done]. }
  destruct H as (_ & _ & H). by apply H.
Qed.

Lemma stats_exact_witness :
  let evs := produce drops_2 ++ acked 0
             ++ [Expire 1; Timeout 1 (λ _, true)] in
  let s := after evs (started 4 (1 # 10) 15) in
  next_seq s = 4 ∧ packets_lost (stats s) = 1 ∧
  retransmissions (stats s) = 3 ∧
  packets_sent (stats s) + packets_lost (stats s) = next_seq s ∧
  packets_sent (stats s) + retransmissions (stats s)
    = Z.of_nat (length (sendto_calls s)).
Proof.
  intros evs s.
  assert (Hrel : Forall reliable evs).
  { repeat (apply List.Forall_cons; [by simpl|]). apply List.Forall_nil. }
  destruct (stats_exact 4 (1 # 10) 15 evs s) as [H1 H2];
    [lia | exact Hrel | vm_compute; reflexivity | vm_compute; reflexivity |].
  split_and!; [vm_compute; reflexivity.. | exact H1 | exact H2].
Defined.

(** ** Timers and completion, on examples *)

(** A timeout and then an acknowledgment, without a race. *)
Lemma timer_single_when_prompt_witness :
  let evs := produce lossless ++ [Expire 0; Timeout 0 (λ _, true)]
             ++ acked 1 ++ produce lossless in
  let s := after evs (started 4 (1 # 10) 15) in
  pending s = [2%nat] ∧ base s = 2 ∧ next_seq s = 6 ∧
  (length (pending s) <= 1)%nat ∧
  (timer_active s = true ↔ base s < next_seq s).
Proof.
  intros evs s.
  destruct (timer_single_when_prompt 4 (1 # 10) 15 evs s) as [H1 H2];
    [vm_compute; reflexivity|].
  split_and!; [vm_compute; reflexivity.. | exact H1 |].
  apply H2; vm_compute; reflexivity.
Defined.

(** X13.  [wait_for_completion] is entered only when every packet is
    confirmed, with the session still running; so its loop, and with it the
    30 s limit, never runs, and no run ends with the report of partial
    completion. *)
Theorem completion_report (ws : Z) (rate : Q) (n : Z) (evs : list Event)
    (s : Session) :
  run evs (started ws rate n) = Some s →
  (phase s = InWaitForCompletion → running s = true ∧ n <= base s) ∧
  ∀ confirmed total, phase s ≠ Stopped (Some (Partially confirmed total)).
Proof.
  intros Hrun.
  assert (H : waits_when_done n s).
  { revert Hrun. apply (run_if_invariant (waits_when_done n)).
    - intros e s1 s2 H _. by apply waits_when_done_step.
    - by split. }
  destruct H as [_ H]. split.
  - intros Hp. by rewrite Hp in H.
  - intros c t Hp. by rewrite Hp in H.
Qed.

(** A forged acknowledgment for the last packet makes the session end at
    once, reporting all packets confirmed. *)
Lemma completion_report_witness :
  let evs := produce lossless ++ acked 14 ++ complete lossless in
  let s := after evs (started 4 (1 # 10) 15) in
  phase s = Stopped (Some AllConfirmed) ∧ next_seq s = 4 ∧
  phase s ≠ Stopped (Some (Partially 4 15)).
Proof.
  intros evs s. split_and!; [vm_compute; reflexivity.. |].
  apply (completion_report 4 (1 # 10) 15 evs s). vm_compute. reflexivity.
Defined.

(** ** A session in which nothing is lost *)

Lemma run_app evs1 evs2 s :
  run (evs1 ++ evs2) s
  = match run evs1 s with Some s1 => run evs2 s1 | None => None end.
Proof.
  unfold run. revert s. induction evs1 as [|e evs1 IH]; intros s; simpl.
  - done.
  - destruct (step e s); [apply IH | done].
Qed.

Lemma sent_on_send_window n env fuel s :
  delivers (packet_loss_rate s) env → 0 <= next_seq s → n <= 2 ^ 32 →
  sent_on n s (send_window fuel env n s).
Proof.
  intros Henv H0 Hn.
  apply (send_window_invariant (sent_on n s)).
  - intros s0 (Hw & Hr & Ht & Hb & Hrun & Hph & Hre & Hl & Hns & Hc & Hps)
           Hopen.
    unfold window_open in Hopen.
    apply andb_prop in Hopen as [[H1 H2]%andb_prop _].
    apply Z.ltb_lt in H1, H2.
    assert (Hp : packable (next_seq s0) = true).
    { unfold packable. apply andb_true_intro.
      split; [apply Z.leb_le | apply Z.ltb_lt]; lia. }
    destruct (Henv (next_seq s0)) as [Hq Hok].
    unfold send_next, send_packet. rewrite Hp. simpl.
    rewrite Hr, Hq, Hok. unfold sent_on. simpl.
    rewrite Hw, Ht, Hb, Hrun, Hph, Hre, Hl, Hc, Hps.
    split_and!; try done; try lia.
    rewrite <- app_assoc. f_equal.
    replace (next_seq s0 + 1 - next_seq s)
      with ((next_seq s0 - next_seq s) + 1) by lia.
    rewrite seqZ_app, map_app by lia. f_equal.
    replace (next_seq s + (next_seq s0 - next_seq s)) with (next_seq s0)
      by lia.
    done.
  - unfold sent_on. rewrite Z.sub_diag. simpl. rewrite app_nil_r.
    split_and!; try done; lia.
Qed.

(** The producer's critical section when nothing is dropped. *)
Lemma sent_on_send_packets_locked n env s :
  delivers (packet_loss_rate s) env → running s = true →
  0 <= next_seq s → n <= 2 ^ 32 →
  sent_on n s (send_packets_locked env n s) ∧
  next_seq (send_packets_locked env n s)
  = Z.max (next_seq s) (Z.min (base s + window_size s) n).
Proof.
  intros Henv Hrun H0 Hn. unfold send_packets_locked.
  set (fuel := Z.to_nat (n - next_seq s)).
  set (s1 := send_window fuel env n s).
  pose proof (sent_on_send_window n env fuel s Henv H0 Hn) as HQ.
  fold s1 in HQ.
  assert (Hclosed : window_open n s1 = false)
    by (apply send_window_closed; lia).
  pose proof HQ as (Hw & _ & _ & Hb & Hr & _ & _ & _ & Hns & _).
  unfold window_open in Hclosed. rewrite Hr, Hrun, andb_true_r in Hclosed.
  apply andb_false_iff in Hclosed.
  assert (Hnext : next_seq s1
                  = Z.max (next_seq s) (Z.min (base s + window_size s) n)).
  { destruct Hclosed as [Hc|Hc]; apply Z.ltb_ge in Hc; lia. }
  assert (Hst : sent_on n s (start_timer s1) ∧
                next_seq (start_timer s1) = next_seq s1).
  { destruct (tuple5_inv (start_timer_ledger s1))
      as (Hf & _ & Hc & Hs & Hrate).
    apply tuple5_inv in Hf as (Ew & _ & Eb & En & _).
    destruct (pair_inv (start_timer_control s1)) as [Er Ep].
    unfold sent_on in *. rewrite Ew, Hrate, Hs, Eb, Er, Ep, En, Hc. done. }
  case_match; [|done]. destruct Hst as [Hst ->]. done.
Qed.

Lemma run_cons e evs s :
  run (e :: evs) s
  = match step e s with Some s' => run evs s' | None => None end.
Proof. done. Qed.

Lemma handle_ack_kept ack_num s :
  packet_loss_rate (handle_ack ack_num s) = packet_loss_rate s ∧
  packets_sent (stats (handle_ack ack_num s)) = packets_sent (stats s) ∧
  packets_lost (stats (handle_ack ack_num s)) = packets_lost (stats s) ∧
  retransmissions (stats (handle_ack ack_num s)) = retransmissions (stats s).
Proof. by_cases. Qed.

Lemma send_packets_locked_listener env n s :
  listener (send_packets_locked env n s) = listener s.
Proof.
  unfold send_packets_locked.
  set (s1 := send_window _ env n s).
  assert (H : listener s1 = listener s).
  { apply (send_window_preserves listener). by_cases. }
  case_match; [|done]. rewrite <- H. by_cases.
Qed.

(** One round of the in-order run: a pass of the producer and the
    acknowledgment of packet [k]. *)
Lemma served_step ws rate n k env s :
  1 <= ws → 0 <= k < n → n <= 2 ^ 32 → delivers rate env →
  served ws rate n k s →
  ∃ s', run (produce env ++ acked k) s = Some s' ∧
        served ws rate n (k + 1) s'.
Proof.
  intros Hws Hk Hn Henv
         (Srun & Sw & Sr & St & Sb & Sn & Sc & Sps & Sl & Sre & Sph & Sli).
  set (s1 := set_phase AtLock s).
  set (s2 := send_packets_locked env n s1).
  set (s3 := set_listener InTry (set_phase InSendPackets s2)).
  assert (Hp : packable k = true).
  { unfold packable. apply andb_true_intro.
    split; [apply Z.leb_le | apply Z.ltb_lt]; lia. }
  assert (Henv1 : delivers (packet_loss_rate s1) env) by by rewrite <- Sr in Henv.
  destruct (sent_on_send_packets_locked n env s1 Henv1 Srun) as [HQ Hnext];
    [simpl; lia | done |].
  fold s2 in HQ, Hnext.
  destruct HQ as (Qw & Qr & Qt & Qb & Qrun & Qph & Qre & Ql & _ & Qc & Qps).
  simpl in Qw, Qr, Qt, Qb, Qrun, Qre, Ql, Qc, Qps, Hnext.
  pose proof (send_packets_locked_listener env n s1) as Qli.
  fold s2 in Qli. simpl in Qli.
  assert (H1 : step (Main env false) s = Some s1).
  { simpl. unfold main_step, send_packets_guard. rewrite Sph, St, Sb, Srun.
    by destruct (Z.ltb_spec k n); [|lia]. }
  assert (H2 : step (Main env false) s1 = Some (set_phase InSendPackets s2)).
  { simpl. unfold main_step. simpl. by rewrite St. }
  assert (H3 : step ListenerLoop (set_phase InSendPackets s2) = Some s3).
  { simpl. by rewrite Qli, Sli, Qrun, Srun. }
  assert (H4 : step (ack k) s3 = Some (set_listener AtWhile (handle_ack k s3))).
  { unfold ack, step. simpl listener. cbv iota.
    unfold receive_acks_iter, receive_acks_try.
    change (length (struct_pack_I k) =? 4)%nat with true. cbv iota.
    by rewrite (struct_unpack_pack k Hp). }
  exists (set_listener AtWhile (handle_ack k s3)). split.
  - unfold produce, acked. simpl app.
    by rewrite run_cons, H1, run_cons, H2, run_cons, H3, run_cons, H4.
  - destruct (handle_ack_kept k s3) as (Kr & Ks & Kl & Kre).
    destruct (pair_inv (handle_ack_control k s3)) as [Kun Kph].
    pose proof (handle_ack_calls k s3) as Kc.
    pose proof (handle_ack_frame k s3) as Kf.
    simpl in Kr, Ks, Kl, Kre, Kun, Kph, Kc, Kf.
    rewrite Qb, Sb in Kf. destruct (Z.leb_spec k k); [|lia].
    apply tuple5_inv in Kf as (Kw & Kt & Kb & Kn & _).
    rewrite Sw, Sb in Hnext.
    assert (Hseq : seqZ 0 (next_seq s2)
                   = seqZ 0 (next_seq s)
                     ++ seqZ (next_seq s) (next_seq s2 - next_seq s)).
    { replace (next_seq s2) with (next_seq s + (next_seq s2 - next_seq s))
        at 1 by lia.
      by rewrite seqZ_app by lia. }
    unfold served. simpl.
    rewrite Kun, Kw, Kr, Kt, Kb, Kn, Kc, Ks, Kl, Kre, Kph.
    rewrite Qrun, Qw, Qr, Qt, Qc, Qps, Ql, Qre, Sc, Sps, Hseq, map_app.
    split_and!; try done; lia.
Qed.

Lemma served_prefix ws rate n env (k : nat) :
  1 <= ws → Z.of_nat k <= n → n <= 2 ^ 32 → delivers rate env →
  ∃ s, run (flat_map (λ k, produce env ++ acked k) (seqZ 0 (Z.of_nat k)))
           (started ws rate n) = Some s ∧
       served ws rate n (Z.of_nat k) s.
Proof.
  intros Hws Hk Hn Henv. induction k as [|k IH].
  - exists (started ws rate n). split; [done|].
    unfold served. simpl. split_and!; try done; lia.
  - destruct IH as (s & Hrun & Hserved); [lia|].
    destruct (served_step ws rate n (Z.of_nat k) env s)
      as (s' & Hs' & Hserved'); [lia | lia | lia | done | done |].
    exists s'. replace (Z.of_nat (S k)) with (Z.of_nat k + 1) by lia.
    split; [|done].
    rewrite seqZ_app, flat_map_app, run_app, Hrun by lia. simpl.
    by replace (Z.of_nat 0 + (0 + Z.of_nat k)) with (Z.of_nat k) by lia.
Qed.

(** X14.  With a window of at least one packet, at most [2^32] packets, no
    simulated loss and no socket failure, the run in which every packet is
    acknowledged in order ends: [base] reaches the packet count, the main
    thread reports that all packets were confirmed and stops the client,
    every packet has been put on the wire exactly once, in order, and
    nothing was retransmitted or counted as lost. *)
Theorem in_order_session_completes (ws : Z) (rate : Q) (n : Z)
    (env : SendEnv) :
  1 <= ws → 0 <= n <= 2 ^ 32 → delivers rate env →
  ∃ s, run (in_order_run env n) (started ws rate n) = Some s ∧
       phase s = Stopped (Some AllConfirmed) ∧ running s = false ∧
       base s = n ∧ next_seq s = n ∧
       sendto_calls s = map make_packet (seqZ 0 n) ∧
       packets_sent (stats s) = n ∧ packets_lost (stats s) = 0 ∧
       retransmissions (stats s) = 0.
Proof.
  intros Hws Hn Henv.
  destruct (served_prefix ws rate n env (Z.to_nat n))
    as (s & Hrun & Hserved); [lia | lia | lia | done |].
  rewrite Z2Nat.id in Hrun, Hserved by lia.
  destruct Hserved as (Srun & Sw & Sr & St & Sb & Sn & Sc & Sps & Sl & Sre
                       & Sph & Sli).
  assert (Hnext : next_seq s = n) by lia.
  set (s0 := set_phase InWaitForCompletion s).
  set (s1 := set_phase AfterWait s0).
  assert (H1 : step (Main env false) s = Some s0).
  { simpl. unfold main_step, send_packets_guard. rewrite Sph, St, Sb.
    by destruct (Z.ltb_spec n n); [lia|]. }
  assert (H2 : step (Main env false) s0 = Some s1).
  { simpl. unfold main_step. simpl. rewrite St, Sb.
    by destruct (Z.ltb_spec n n); [lia|]. }
  assert (H3 : step (Main env false) s1 = Some (finish s1)) by done.
  exists (finish s1). split.
  - unfold in_order_run, complete.
    by rewrite run_app, Hrun, run_cons, H1, run_cons, H2, run_cons, H3.
  - destruct (tuple5_inv (stop_ledger s1)) as (Hf & _ & Hc & Hst & _).
    apply tuple5_inv in Hf as (_ & _ & Hb & Hns & _).
    assert (Hrep : report s1 = AllConfirmed).
    { unfold report. simpl. rewrite St, Sb.
      by destruct (Z.leb_spec n n); [|lia]. }
    unfold finish. rewrite Hrep. simpl.
    rewrite stop_running, Hb, Hns, Hc, Hst. simpl.
    rewrite Sb, Sc, Hnext, Sps, Hnext. by split_and!.
Qed.

Lemma in_order_session_completes_witness :
  ∃ s, run (in_order_run lossless 15) (started 4 (1 # 10) 15) = Some s ∧
       phase s = Stopped (Some AllConfirmed) ∧ running s = false ∧
       base s = 15 ∧ next_seq s = 15 ∧
       sendto_calls s = map make_packet (seqZ 0 15) ∧
       packets_sent (stats s) = 15 ∧ packets_lost (stats s) = 0 ∧
       retransmissions (stats s) = 0.
Proof.
  apply (in_order_session_completes 4 (1 # 10) 15 lossless); [lia | lia |].
  intros q. split; reflexivity.
Defined.

(** ** Acknowledgments out of order and beyond the last packet *)

Lemma handle_ack_view ack_num s :
  window_view (handle_ack ack_num s)
  = if base s <=? ack_num
    then (ack_num + 1, next_seq s, purge ack_num (packet_data s),
          purge ack_num (sent_packets s))
    else window_view s.
Proof.
  unfold handle_ack, restart_timer, stop_timer, start_timer, cancel, bump.
  simpl. destruct (base s <=? ack_num); [|done]. simpl.
  destruct (ack_num + 1 <? next_seq s); simpl;
    destruct (timer_active s) eqn:Ea, (timer_thread s) eqn:Et; simpl;
    rewrite ?Ea, ?Et; done.
Qed.

Lemma purge_purge a b (d : gmap Z (list byte)) :
  purge a (purge b d) = purge (Z.max a b) d.
Proof.
  apply map_eq. intros k. rewrite !purge_lookup.
  repeat case_decide; try done; lia.
Qed.

(** X15.  Acknowledgments are cumulative in any order: after two of them,
    whichever came first, the window and both dictionaries are what the
    larger one alone would have left.  A reordered or duplicated
    acknowledgment therefore undoes nothing. *)
Theorem acks_in_any_order (a b : Z) (s : Session) :
  window_view (handle_ack a (handle_ack b s))
  = window_view (handle_ack (Z.max a b) s).
Proof.
  rewrite (handle_ack_view a), (handle_ack_view (Z.max a b)).
  pose proof (handle_ack_view b s) as Hb.
  destruct (Z.leb_spec (base s) b).
  - assert (E : base (handle_ack b s) = b + 1)
      by (by injection Hb as -> _ _ _).
    rewrite E. destruct (Z.leb_spec (base s) (Z.max a b)); [|lia].
    destruct (Z.leb_spec (b + 1) a).
    + injection Hb as _ -> -> ->. rewrite !purge_purge.
      by replace (Z.max a b) with a by lia.
    + rewrite Hb. by replace (Z.max a b) with b by lia.
  - assert (E : base (handle_ack b s) = base s)
      by (by injection Hb as -> _ _ _).
    rewrite E. destruct (Z.leb_spec (base s) a).
    + destruct (Z.leb_spec (base s) (Z.max a b)); [|lia].
      injection Hb as _ -> -> ->. by replace (Z.max a b) with a by lia.
    + destruct (Z.leb_spec (base s) (Z.max a b)); [lia | done].
Qed.

(** X16.  An acknowledgment at or beyond the last sequence number, handled
    while the main thread is at the test of the outer loop of
    [send_packets], ends the session as confirmed: whatever has been sent
    so far, the main thread finds the test false, goes through
    [wait_for_completion], reports that all packets were confirmed and
    stops the client, and no further packet is sent. *)
Theorem last_ack_ends_session (data : list byte) (a : Z) (env : SendEnv)
    (d : bool) (s : Session) :
  running s = true → phase s = InSendPackets → listener s = InTry →
  struct_unpack_I data = Some a →
  base s <= a → total_packets (stats s) - 1 <= a →
  ∃ s', run [Listener (Datagram data); Main env d; Main env d; Main env d] s
        = Some s' ∧
        phase s' = Stopped (Some AllConfirmed) ∧ running s' = false ∧
        base s' = a + 1 ∧ next_seq s' = next_seq s ∧
        sendto_calls s' = sendto_calls s.
Proof.
  intros Hrun Hph Hli Hdata Hb Hlast.
  assert (Hlen : (length data =? 4)%nat = true).
  { apply Nat.eqb_eq, struct_unpack_I_length. eauto. }
  set (s1 := set_listener AtWhile (handle_ack a s)).
  assert (H1 : step (Listener (Datagram data)) s = Some s1).
  { simpl. rewrite Hli. unfold receive_acks_iter, receive_acks_try.
    by rewrite Hlen, Hdata. }
  destruct (pair_inv (handle_ack_control a s)) as [Er Ep].
  pose proof (handle_ack_frame a s) as Hf.
  destruct (Z.leb_spec (base s) a); [|lia].
  apply tuple5_inv in Hf as (_ & Et & Eb & En & _).
  pose proof (handle_ack_calls a s) as Ec.
  set (s2 := set_phase AfterWait (set_phase InWaitForCompletion s1)).
  assert (E2 : running s2 = true ∧ phase s1 = InSendPackets ∧
               total_packets (stats s2) = total_packets (stats s) ∧
               base s2 = a + 1 ∧ next_seq s2 = next_seq s ∧
               sendto_calls s2 = sendto_calls s).
  { simpl. split_and!; congruence. }
  destruct E2 as (Er2 & Ep1 & Et2 & Eb2 & En2 & Ec2).
  assert (H2 : step (Main env d) s1
               = Some (set_phase InWaitForCompletion s1)).
  { simpl. unfold main_step, send_packets_guard. rewrite Ep1.
    change (total_packets (stats s1)) with (total_packets (stats s2)).
    change (base s1) with (base s2). rewrite Et2, Eb2.
    by destruct (Z.ltb_spec (a + 1) (total_packets (stats s))); [lia|]. }
  assert (H3 : step (Main env d) (set_phase InWaitForCompletion s1) = Some s2).
  { simpl. unfold main_step. simpl phase. cbv iota.
    change (total_packets (stats (set_phase InWaitForCompletion s1)))
      with (total_packets (stats s2)).
    change (base (set_phase InWaitForCompletion s1)) with (base s2).
    rewrite Et2, Eb2.
    by destruct (Z.ltb_spec (a + 1) (total_packets (stats s))); [lia|]. }
  assert (H4 : step (Main env d) s2 = Some (finish s2)) by done.
  exists (finish s2). split.
  - by rewrite run_cons, H1, run_cons, H2, run_cons, H3, run_cons, H4.
  - destruct (tuple5_inv (stop_ledger s2)) as (Hf & _ & Hc & _ & _).
    apply tuple5_inv in Hf as (_ & _ & Sb & Sn & _).
    assert (Hrep : report s2 = AllConfirmed).
    { unfold report. rewrite Et2, Eb2.
      by destruct (Z.leb_spec (total_packets (stats s)) (a + 1)); [|lia]. }
    unfold finish. rewrite Hrep. simpl.
    rewrite stop_running, Sb, Sn, Hc. by split_and!.
Qed.

(** Four packets sent of fifteen, and the acknowledgment for packet 14. *)
Lemma last_ack_ends_session_witness :
  let s := after (produce lossless ++ [ListenerLoop]) (started 4 (1 # 10) 15) in
  ∃ s', run (ack 14 :: complete lossless) s = Some s' ∧
        phase s' = Stopped (Some AllConfirmed) ∧ running s' = false ∧
        base s' = 15 ∧ next_seq s' = next_seq s ∧
        sendto_calls s' = sendto_calls s.
Proof.
  intros s.
  apply (last_ack_ends_session (struct_pack_I 14) 14 lossless false s);
    vm_compute; first [reflexivity | discriminate].
Defined.

(** If the acknowledgment is handled after the main thread has passed the
    test and before it gets the lock, the critical section still runs, and
    with [base] at 15 it sends all the packets that remain. *)
Example last_ack_after_test :
  let evs := produce lossless
             ++ [Main lossless false; ListenerLoop; ack 14;
                 Main lossless false] in
  let s := after evs (started 4 (1 # 10) 15) in
  run evs (started 4 (1 # 10) 15) = Some s ∧
  base s = 15 ∧ next_seq s = 15 ∧ length (sendto_calls s) = 15%nat.
Proof. intros evs s. split_and!; vm_compute; reflexivity. Qed.

(** ** The size of a retransmission *)

Lemma omap_length_le {A B} (f : A → option B) (l : list A) :
  (length (omap f l) <= length l)%nat.
Proof.
  induction l as [|x l IH]; csimpl; [done|].
  destruct (f x); simpl; lia.
Qed.

(** X17.  A timeout never sends more than a window: in every run of a
    session with a non-negative window size, the handler makes at most
    [window_size] socket calls. *)
Theorem timeout_burst_bounded (ws : Z) (rate : Q) (n : Z)
    (evs : list Event) (s s' : Session) (t : nat) (ok : Z → bool) :
  0 <= ws →
  run evs (started ws rate n) = Some s →
  step (Timeout t ok) s = Some s' →
  (length (sendto_calls s') <= length (sendto_calls s) + Z.to_nat ws)%nat.
Proof.
  intros Hws Hrun. simpl. case_match; [|done]. intros [= <-].
  assert (Hup : upper_bound ws s).
  { revert Hrun. apply (run_if_invariant (upper_bound ws)).
    - intros e s1 s2 H1 _. by apply upper_bound_step.
    - split; simpl; [done | lia]. }
  destruct Hup as [_ Hup]. set (s1 := set_expired _ s).
  destruct (running s) eqn:Hr.
  - destruct (handle_timeout_running ok s1 Hr) as (Hc & _).
    rewrite Hc, length_app. simpl.
    pose proof (omap_length_le (λ k, packet_data s !! k)
                  (range (base s) (next_seq s))) as Hle.
    unfold range in *. rewrite length_seqZ in Hle. simpl in *. lia.
  - unfold handle_timeout. simpl. rewrite Hr. simpl. lia.
Qed.

Lemma timeout_burst_bounded_witness :
  let evs := produce lossless ++ acked 0 ++ produce lossless ++ [Expire 1] in
  let s := after evs (started 4 (1 # 10) 15) in
  let s' := after (evs ++ [Timeout 1 (λ _, true)]) (started 4 (1 # 10) 15) in
  length (sendto_calls s) = 5%nat ∧ length (sendto_calls s') = 9%nat ∧
  (length (sendto_calls s') <= length (sendto_calls s) + Z.to_nat 4)%nat.
Proof.
  intros evs s s'. split; [vm_compute; reflexivity|].
  split; [vm_compute; reflexivity|].
  apply (timeout_burst_bounded 4 (1 # 10) 15 evs s s' 1 (λ _, true));
    [lia | vm_compute; reflexivity | vm_compute; reflexivity].
Defined.
